(** * nlp-toolkit: GloVe training script, custom RNN cells, RNN seq2seq driver

    A shallow embedding of

    - [examples/language_model/glove.py]   (the training step and the final
      serialisation of the combined embeddings),
    - [nlptoolkit/models/rnn/rnn.py]       ([_get_activation_fn],
      [NaiveCustomRNN], [RNNCellBase] with [extra_repr], [RNNCell]),
    - [nlptoolkit/models/seq2seq/rnn_mt.py] ([RNNEncoder], [RNNDecoder],
      [RNNSeq2Seq.forward] and [init_weights], and the three modules once
      more on the shapes of their tensors).

    Tensors of the framework are modelled by their shape and their entries.
    Floating-point entries are idealised: real numbers where the code applies
    [log], [pow] and [tanh], rational numbers where it only compares them.
    Python exceptions are values of [exn], and a computation that may raise
    returns a [result]. *)

From Stdlib Require Import Reals Lra Lia QArith String Ascii List DecimalString.
From stdpp Require Import base list.
Import ListNotations.

(** ** Exceptions and results *)

Inductive exn : Type :=
| RuntimeError (msg : string)
| IndexError (msg : string).

Inductive result (A : Type) : Type :=
| Ok (a : A)
| Raise (e : exn).

Arguments Ok {A} a.
Arguments Raise {A} e.

#[global] Instance result_ret : MRet result := fun _ a => Ok a.
#[global] Instance result_bind : MBind result := fun _ _ f r =>
  match r with
  | Ok a => f a
  | Raise e => Raise e
  end.

Definition raises {A : Type} (r : result A) : Prop :=
  match r with
  | Ok _ => False
  | Raise _ => True
  end.

(** Python's [str(n)] of a non-negative integer, as [format] inserts it. *)
Definition str_of_nat (n : nat) : string :=
  NilZero.string_of_uint (Nat.to_uint n).

(** ** Tensors of rank one and two over the reals *)

Module Torch.

Local Open Scope R_scope.

(** [T1 v] has shape [[length v]]; [T2 m a] has shape [[length a; m]]: the
    column count is kept apart from the rows so that a tensor without rows
    still has a shape. *)
Inductive tensor : Type :=
| T1 (v : list R)
| T2 (m : nat) (a : list (list R)).

Definition shape (t : tensor) : list nat :=
  match t with
  | T1 v => [length v]
  | T2 m a => [length a; m]
  end.

(** [t.size(d)] *)
Definition size (t : tensor) (d : nat) : result nat :=
  match shape t !! d with
  | Some n => Ok n
  | None => Raise (IndexError "Dimension out of range")
  end.

Definition get1 (t : tensor) (i : nat) : R :=
  match t with
  | T1 v => nth i v 0
  | T2 _ _ => 0
  end.

Definition get2 (t : tensor) (i j : nat) : R :=
  match t with
  | T1 _ => 0
  | T2 _ a => nth j (nth i a []) 0
  end.

Definition Rsum (l : list R) : R := fold_right Rplus 0 l.

(** The size of a broadcast dimension: equal sizes, or one of them is 1. *)
Definition bdim (a b : nat) : option nat :=
  if a =? b then Some a
  else if a =? 1 then Some b
  else if b =? 1 then Some a
  else None.

(** Stretching a dimension of size 1 to size [k]; other sizes are kept. *)
Definition expand {A : Type} (d : A) (k : nat) (l : list A) : list A :=
  if length l =? k then l else repeat (hd d l) k.

(** A tensor seen as a matrix: a rank-one tensor is a single row, as
    broadcasting aligns shapes on the right. *)
Definition as2 (t : tensor) : nat * list (list R) :=
  match t with
  | T1 v => (length v, [v])
  | T2 m a => (m, a)
  end.

Definition size_mismatch : exn :=
  RuntimeError "The size of tensor a must match the size of tensor b".

(** Elementwise binary operators with broadcasting. *)
Definition broadcast (f : R -> R -> R) (x y : tensor) : result tensor :=
  match x, y with
  | T1 u, T1 v =>
      match bdim (length u) (length v) with
      | Some k => Ok (T1 (zip_with f (expand 0 k u) (expand 0 k v)))
      | None => Raise size_mismatch
      end
  | _, _ =>
      let '(m1, a1) := as2 x in
      let '(m2, a2) := as2 y in
      match bdim (length a1) (length a2), bdim m1 m2 with
      | Some n, Some m =>
          let stretch a := expand [] n (map (expand 0 m) a) in
          Ok (T2 m (zip_with (zip_with f) (stretch a1) (stretch a2)))
      | _, _ => Raise size_mismatch
      end
  end.

Definition tadd := broadcast Rplus.
Definition tsub := broadcast Rminus.
Definition tmul := broadcast Rmult.

(** Elementwise unary operators. *)
Definition tmap (f : R -> R) (t : tensor) : tensor :=
  match t with
  | T1 v => T1 (map f v)
  | T2 m a => T2 m (map (map f) a)
  end.

(** [torch.sum(t, dim=1)] *)
Definition sum_dim1 (t : tensor) : result tensor :=
  match t with
  | T1 _ => Raise (IndexError "Dimension out of range")
  | T2 _ a => Ok (T1 (map Rsum a))
  end.

Definition numel (t : tensor) : nat :=
  match t with
  | T1 v => length v
  | T2 m a => length a * m
  end.

Definition entries (t : tensor) : list R :=
  match t with
  | T1 v => v
  | T2 _ a => concat a
  end.

(** [t.mean()] *)
Definition mean (t : tensor) : R := Rsum (entries t) / INR (numel t).

(** [torch.clamp(t, max=c)] *)
Definition clamp_max (t : tensor) (c : R) : tensor := tmap (fun x => Rmin x c) t.

(** [torch.mm(x, y)]: both operands are matrices and the inner sizes agree. *)
Definition dot (u v : list R) : R := Rsum (zip_with Rmult u v).

Definition column (j : nat) (a : list (list R)) : list R :=
  map (fun r => nth j r 0) a.

Definition mm (x y : tensor) : result tensor :=
  match x, y with
  | T2 m a, T2 p b =>
      if m =? length b
      then Ok (T2 p (map (fun r => map (fun j => dot r (column j b)) (seq 0 p)) a))
      else Raise (RuntimeError "mat1 and mat2 shapes cannot be multiplied")
  | _, _ => Raise (RuntimeError "self must be a matrix")
  end.

(** [input.new_zeros(n, m)] *)
Definition new_zeros (n m : nat) : tensor := T2 m (repeat (repeat 0 m) n).

(** A well-formed tensor of shape [[n; m]], and a tensor of shape [[n]]. *)
Definition matrix (n m : nat) (t : tensor) : Prop :=
  exists a, t = T2 m a /\ length a = n /\ Forall (fun r => length r = m) a.

Definition vector (n : nat) (t : tensor) : Prop :=
  exists v, t = T1 v /\ length v = n.

(** The sum of [f 0], ..., [f (n - 1)]. *)
Fixpoint sum_upto (n : nat) (f : nat -> R) : R :=
  match n with
  | O => 0
  | S k => sum_upto k f + f k
  end.

(** [outer F l] is the square matrix whose entry [(i, j)] is [F] of elements
    [i] and [j] of [l]; [col g l] is the column of the [g x], one row each. *)
Definition outer {A : Type} (F : A -> A -> R) (l : list A) : list (list R) :=
  map (fun x => map (fun y => F x y) l) l.

Definition col {A : Type} (g : A -> R) (l : list A) : list (list R) :=
  map (fun x => [g x]) l.

End Torch.

(** ** examples/language_model/glove.py *)

Module Glove.

Import Torch.
Local Open Scope R_scope.

(** Hyper-parameters of the sample weight. *)
Definition m_max : R := 100.
Definition alpha : R := 0.75.

(** The body of the training loop up to the scalar [wavg_loss] on which
    [backward] is called.  [word_embeds], [word_biases] are what
    [model.forward_w(words)] returns and [context_embeds], [context_biases]
    what [model.forward_c(contexts)] returns; [GloveModel] is not among the
    sources, so the four tensors are arguments.  [torch.pow] and [Rpower]
    agree on positive bases, the only ones a co-occurrence count gives. *)
Definition wavg_loss
    (word_embeds word_biases context_embeds context_biases counts : tensor)
    : result R :=
  let log_counts := tmap ln counts in
  let weight_factor :=
    clamp_max (tmap (fun x => Rpower x alpha) (tmap (fun c => c / m_max) counts)) 1 in
  prod ← tmul word_embeds context_embeds;
  dots ← sum_dim1 prod;
  s1 ← tadd dots word_biases;
  s2 ← tadd s1 context_biases;
  s3 ← tsub s2 log_counts;
  let loss := tmap (fun x => x ^ 2) s3 in
  weighted ← tmul weight_factor loss;
  mret (mean weighted).

(** The weighted least-squares objective as the GloVe paper states it, one
    term per sample of the mini-batch. *)
Record sample : Type := {
  word_embed : list R;
  context_embed : list R;
  word_bias : R;
  context_bias : R;
  count : R
}.

Definition sample_loss (s : sample) : R :=
  (dot (word_embed s) (context_embed s) + word_bias s + context_bias s
   - ln (count s)) ^ 2.

Definition sample_weight (s : sample) : R :=
  Rmin (Rpower (count s / 100) 0.75) 1.

Definition glove_objective (batch : list sample) : R :=
  Rsum (map (fun s => sample_weight s * sample_loss s) batch)
  / INR (length batch).

(** The tensors the training step sees for a mini-batch, with the shapes the
    comments of the script give: embeddings [batch x dim], biases
    [batch x 1].  The counts are taken both as a vector [batch] and as a
    column [batch x 1]. *)
Definition embeds_of (dim : nat) (f : sample -> list R) (batch : list sample) : tensor :=
  T2 dim (map f batch).

Definition column_of (f : sample -> R) (batch : list sample) : tensor :=
  T2 1 (map (fun s => [f s]) batch).

Definition vector_of (f : sample -> R) (batch : list sample) : tensor :=
  T1 (map f batch).

Definition step_loss (dim : nat) (counts_of : (sample -> R) -> list sample -> tensor)
    (batch : list sample) : result R :=
  wavg_loss (embeds_of dim word_embed batch) (column_of word_bias batch)
            (embeds_of dim context_embed batch) (column_of context_bias batch)
            (counts_of count batch).

(** What the code computes on a batch of size [n]: every pair (i, j) of
    samples contributes, the dot product taken from sample [j] and the biases
    from sample [i]. *)
Definition cross_term (si sj sc : sample) : R :=
  sample_weight sc *
  (dot (word_embed sj) (context_embed sj) + word_bias si + context_bias si
   - ln (count sc)) ^ 2.

(** *** Serialisation of the trained embeddings *)

Record embedding_file : Type := {
  path : string;
  lines : list (string * list R)
}.

(** Modelled from the spec: [save_pretrained] of
    [nlptoolkit.data.utils.utils] is not among the sources.  The spec has it
    write "a plain-text embedding file pairing each vocabulary token with its
    embedding vector": line [i] pairs token [i] of the vocabulary with row [i]
    of the matrix; a matrix with fewer rows than the vocabulary has tokens
    makes the row lookup fail. *)
Definition save_pretrained (vocab : list string) (embeds : tensor) (save_path : string)
    : result embedding_file :=
  match embeds with
  | T2 _ a =>
      if length vocab <=? length a
      then Ok {| path := save_path; lines := zip vocab a |}
      else Raise (IndexError "index out of bounds")
  | T1 _ => Raise (IndexError "too many indices for tensor of dimension 1")
  end.

(** The last two statements of the script. *)
Definition serialize (vocab : list string) (w_embeddings_weight c_embeddings_weight : tensor)
    : result embedding_file :=
  combined_embeds ← tadd w_embeddings_weight c_embeddings_weight;
  save_pretrained vocab combined_embeds "glove.vec".


(** [weight_factor], the sample weights of the training step. *)
Definition weight_factor (counts : tensor) : tensor :=
  clamp_max (tmap (fun x => Rpower x alpha) (tmap (fun c => c / m_max) counts)) 1.

(** Every sample of the batch has embeddings of [dim] entries. *)
Definition well_sized (dim : nat) (batch : list sample) : Prop :=
  Forall (fun s => length (word_embed s) = dim /\ length (context_embed s) = dim) batch.

Definition dot_of (s : sample) : R := dot (word_embed s) (context_embed s).

End Glove.

(** ** nlptoolkit/models/rnn/rnn.py *)

Module Rnn.

Import Torch.
Local Open Scope R_scope.
Local Open Scope string_scope.

(** The two functions of [torch.nn.functional] the selector can return. *)
Inductive activation_fn : Type :=
| F_relu
| F_tanh.

Definition _get_activation_fn (activation : string) : result activation_fn :=
  if String.eqb activation "relu" then Ok F_relu
  else if String.eqb activation "tanh" then Ok F_tanh
  else Raise (RuntimeError ("activation should be relu/tanh, not " ++ activation)).

(** [hx = input.new_zeros(input.size(0), hidden_size)] when [hx is None]. *)
Definition default_hx (input : tensor) (hidden_size : nat) (hx : option tensor)
    : result tensor :=
  match hx with
  | None => n ← size input 0; mret (new_zeros n hidden_size)
  | Some h => mret h
  end.

Module NaiveCustomRNN.

Record t : Type := {
  input_size : nat;
  hidden_size : nat;
  W_xh : tensor;
  W_hh : tensor;
  b_h : tensor;
  W_hq : tensor;
  b_q : tensor
}.

Definition forward (self : t) (input : tensor) (hx : option tensor)
    : result (tensor * tensor) :=
  hx ← default_hx input (hidden_size self) hx;
  xw ← mm input (W_xh self);
  hw ← mm hx (W_hh self);
  s ← tadd xw hw;
  hy ← tadd s (b_h self);
  let hy := tmap tanh hy in
  o ← mm hy (W_hq self);
  out ← tadd o (b_q self);
  mret (out, hy).

(** The parameters have the shapes [__init__] gives them. *)
Definition shaped (self : t) : Prop :=
  matrix (input_size self) (hidden_size self) (W_xh self) /\
  matrix (hidden_size self) (hidden_size self) (W_hh self) /\
  vector (hidden_size self) (b_h self) /\
  matrix (hidden_size self) (hidden_size self) (W_hq self) /\
  vector (hidden_size self) (b_q self).

End NaiveCustomRNN.

(** The Elman recurrence as the textbook writes it, entry by entry:
    [H' = tanh (X W_xh + H W_hh + b_h)] and [O = H' W_hq + b_q]. *)
Definition elman_hidden (n h : nat) (X H Wxh Whh bh : tensor) (i j : nat) : R :=
  tanh (sum_upto n (fun k => get2 X i k * get2 Wxh k j)
        + sum_upto h (fun k => get2 H i k * get2 Whh k j)
        + get1 bh j).

Definition elman_output (h : nat) (H' Whq bq : tensor) (i j : nat) : R :=
  sum_upto h (fun k => get2 H' i k * get2 Whq k j) + get1 bq j.

Module RNNCell.

(** [RNNTanhCell] and [RNNReLUCell] are imported from [.function], which is
    not among the sources: the two functions are parameters.  They receive the
    input, the hidden state and the four parameters of the cell, and are
    called only after both shape checks have passed. *)
Definition cell_fn : Type :=
  tensor -> tensor -> tensor -> tensor -> option tensor -> option tensor -> tensor.

Class Function : Type := {
  RNNTanhCell : cell_fn;
  RNNReLUCell : cell_fn
}.

Record t : Type := {
  input_size : nat;
  hidden_size : nat;
  bias : bool;
  nonlinearity : string;
  weight_ih : tensor;
  weight_hh : tensor;
  bias_ih : option tensor;
  bias_hh : option tensor
}.

(** [RNNCellBase.check_forward_input] *)
Definition input_size_msg (got expected : nat) : string :=
  "input has inconsistent input_size: got " ++ str_of_nat got
  ++ ", expected " ++ str_of_nat expected.

Definition check_forward_input (self : t) (input : tensor) : result unit :=
  n ← size input 1;
  if negb (n =? input_size self)%nat
  then Raise (RuntimeError (input_size_msg n (input_size self)))
  else mret tt.

(** [RNNCellBase.check_forward_hidden] *)
Definition batch_size_msg (hidden_label : string) (got hgot : nat) : string :=
  "Input batch size " ++ str_of_nat got ++ " doesn't match hidden"
  ++ hidden_label ++ " batch size " ++ str_of_nat hgot.

Definition hidden_size_msg (hidden_label : string) (got expected : nat) : string :=
  "hidden" ++ hidden_label ++ " has inconsistent hidden_size: got "
  ++ str_of_nat got ++ ", expected " ++ str_of_nat expected.

Definition check_forward_hidden (self : t) (input hx : tensor) (hidden_label : string)
    : result unit :=
  n ← size input 0;
  hn ← size hx 0;
  if negb (n =? hn)%nat
  then Raise (RuntimeError (batch_size_msg hidden_label n hn))
  else
    hm ← size hx 1;
    if negb (hm =? hidden_size self)%nat
    then Raise (RuntimeError (hidden_size_msg hidden_label hm (hidden_size self)))
    else mret tt.

Definition unknown_nonlinearity_msg (nonlinearity : string) : string :=
  "Unknown nonlinearity: " ++ nonlinearity.

Definition forward `{Function} (self : t) (input : tensor) (hx : option tensor)
    : result tensor :=
  _ ← check_forward_input self input;
  hx ← default_hx input (hidden_size self) hx;
  _ ← check_forward_hidden self input hx "";
  func ← (if String.eqb (nonlinearity self) "tanh" then mret RNNTanhCell
          else if String.eqb (nonlinearity self) "relu" then mret RNNReLUCell
          else Raise (RuntimeError (unknown_nonlinearity_msg (nonlinearity self))));
  mret (func input hx (weight_ih self) (weight_hh self) (bias_ih self) (bias_hh self)).

(** The three messages of the shape checks, and the error of the dispatch. *)
Definition shape_error (e : exn) : Prop :=
  (exists got expected, e = RuntimeError (input_size_msg got expected)) \/
  (exists got hgot, e = RuntimeError (batch_size_msg "" got hgot)) \/
  (exists got expected, e = RuntimeError (hidden_size_msg "" got expected)).

Definition raises_shape_error {A : Type} (r : result A) : Prop :=
  match r with
  | Ok _ => False
  | Raise e => shape_error e
  end.

Definition raises_unknown_nonlinearity {A : Type} (self : t) (r : result A) : Prop :=
  r = Raise (RuntimeError (unknown_nonlinearity_msg (nonlinearity self))).

(** Both shape checks pass: the input is [[batch; input_size]] and the hidden
    state, when one is given, is [[batch; hidden_size]]. *)
Definition checks_pass (self : t) (input : tensor) (hx : option tensor) : Prop :=
  exists batch,
    shape input = [batch; input_size self] /\
    (hx = None \/ exists h, hx = Some h /\ shape h = [batch; hidden_size self]).

End RNNCell.

Module RNNCellBase.

(** The values an attribute of a cell can hold. *)
Inductive value : Type :=
| VInt (n : nat)
| VBool (b : bool)
| VStr (s : string).

(** [str(v)], as [format] inserts it. *)
Definition str (v : value) : string :=
  match v with
  | VInt n => str_of_nat n
  | VBool true => "True"
  | VBool false => "False"
  | VStr s => s
  end.

(** The [__dict__] of a module, as the lookup of an attribute name. *)
Definition dict : Type := string -> option value.

(** A format string: literal text and replacement fields [{name}]. *)
Inductive segment : Type :=
| Lit (s : string)
| Field (name : string).

Inductive formatted : Type :=
| Formatted (s : string)
| KeyError (key : string).

(** [str.format] with the entries of [d] as keyword arguments: fields are
    looked up from left to right. *)
Fixpoint format (template : list segment) (d : dict) : formatted :=
  match template with
  | [] => Formatted ""
  | Lit s :: rest =>
      match format rest d with
      | Formatted r => Formatted (s ++ r)
      | KeyError k => KeyError k
      end
  | Field name :: rest =>
      match d name with
      | None => KeyError name
      | Some v =>
          match format rest d with
          | Formatted r => Formatted (str v ++ r)
          | KeyError k => KeyError k
          end
      end
  end.

(** [RNNCellBase.extra_repr], on the [__dict__] of the module. *)
Definition extra_repr (d : dict) : formatted :=
  let s := [Field "input_size"; Lit ", "; Field "hidden_size"] in
  let s :=
    match d "bias" with
    | Some (VBool true) | None => s
    | Some _ => (s ++ [Lit ", bias="; Field "bias"])%list
    end in
  let s :=
    match d "nonlinearity" with
    | Some (VStr nl) => if String.eqb nl "tanh" then s
                        else (s ++ [Lit ", nonlinearity="; Field "nonlinearity"])%list
    | Some _ => (s ++ [Lit ", nonlinearity="; Field "nonlinearity"])%list
    | None => s
    end in
  format s d.

(** The attributes [RNNCell.__init__] stores in [__dict__]. *)
Definition cell_dict (self : RNNCell.t) : dict := fun name =>
  if String.eqb name "input_size" then Some (VInt (RNNCell.input_size self))
  else if String.eqb name "hidden_size" then Some (VInt (RNNCell.hidden_size self))
  else if String.eqb name "bias" then Some (VBool (RNNCell.bias self))
  else if String.eqb name "nonlinearity" then Some (VStr (RNNCell.nonlinearity self))
  else None.

(** The two parts of the text printed for a cell. *)
Definition sizes (self : RNNCell.t) : string :=
  str_of_nat (RNNCell.input_size self) ++ ", " ++ str_of_nat (RNNCell.hidden_size self).

Definition suffix (self : RNNCell.t) : string :=
  (if RNNCell.bias self then "" else ", bias=False")
  ++ (if String.eqb (RNNCell.nonlinearity self) "tanh" then ""
      else ", nonlinearity=" ++ RNNCell.nonlinearity self).

End RNNCellBase.

End Rnn.

(** ** nlptoolkit/models/seq2seq/rnn_mt.py *)

Module Seq2Seq.

Local Open Scope Q_scope.

(** Strict comparison of two floats, [x < y]. *)
Definition Qltb (x y : Q) : bool := negb (Qle_bool y x).

(** A two-dimensional tensor of token ids, [[len, batch size]]. *)
Record tokens : Type := {
  width : nat;
  rows : list (list nat)
}.

(** A decoder prediction, [[batch size, output dim]], and the tensor of all
    predictions, [[trg len, batch size, output dim]]. *)
Definition prediction : Type := list (list Q).

Definition zeros (len batch dim : nat) : list prediction :=
  repeat (repeat (repeat 0 dim) batch) len.

(** [output.argmax(1)]: for every row the index of its first maximal entry. *)
Fixpoint argmax_from (best : Q) (besti i : nat) (l : list Q) : nat :=
  match l with
  | [] => besti
  | x :: l' =>
      if Qltb best x then argmax_from x i (S i) l'
      else argmax_from best besti (S i) l'
  end.

Definition argmax_row (l : list Q) : nat :=
  match l with
  | [] => O
  | x :: l' => argmax_from x 0 1 l'
  end.

Definition argmax1 (output : prediction) : list nat := map argmax_row output.

(** The layers of the framework the two modules are built from.  [G] is the
    state of the framework's random generator, which [nn.Dropout] and the
    dropout inside [nn.GRU] consume; [FT] is the type of the float tensors
    that flow between the layers.  The layers are total: token ids are taken
    to lie below the vocabulary sizes the layers were built with. *)
Class Layers (G FT : Type) : Type := {
  trg_vocab_size : nat;
  encoder_embedding : list (list nat) -> FT;
  decoder_embedding : list (list nat) -> FT;
  dropout : FT -> G -> FT * G;
  encoder_rnn : FT -> G -> (FT * FT) * G;
  decoder_rnn : FT -> FT -> G -> (FT * FT) * G;
  cat : list FT -> nat -> FT;
  squeeze : FT -> nat -> FT;
  fc_out : FT -> prediction
}.

Section Model.

Context {G FT : Type} `{Layers G FT}.

(** One call of [self.decoder], with its arguments and its results. *)
Record call : Type := {
  c_input : list nat;
  c_hidden : FT;
  c_context : FT;
  c_prediction : prediction;
  c_hidden_out : FT
}.

(** What a run of [forward] reads and changes outside its local variables:
    the generator of the framework, the generator behind [random.random] as
    the stream of its future draws, and the log of the decoder calls made so
    far. *)
Record world : Type := {
  torch_rng : G;
  py_rng : nat -> Q;
  calls : list call
}.

Definition M (A : Type) : Type := world -> result A * world.

#[global] Instance M_ret : MRet M := fun _ a w => (Ok a, w).
#[global] Instance M_bind : MBind M := fun _ _ f m w =>
  match m w with
  | (Ok a, w') => f a w'
  | (Raise e, w') => (Raise e, w')
  end.

Definition raise {A : Type} (e : exn) : M A := fun w => (Raise e, w).

Definition set_torch_rng (g : G) (w : world) : world :=
  {| torch_rng := g; py_rng := py_rng w; calls := calls w |}.

(** The world after one step of the decoding loop: the generator of the
    framework has moved to [g], one draw is gone, and the call is logged. *)
Definition after_step (g : G) (c : call) (w : world) : world :=
  {| torch_rng := g; py_rng := fun n => py_rng w (S n); calls := calls w ++ [c] |}.

(** A layer that consumes the framework's generator. *)
Definition with_torch_rng {A : Type} (f : G -> A * G) : M A := fun w =>
  let '(a, g) := f (torch_rng w) in
  (Ok a, {| torch_rng := g; py_rng := py_rng w; calls := calls w |}).

(** [random.random()] *)
Definition random_random : M Q := fun w =>
  (Ok (py_rng w O),
   {| torch_rng := torch_rng w; py_rng := fun n => py_rng w (S n); calls := calls w |}).

Definition log_call (c : call) : M unit := fun w =>
  (Ok tt, {| torch_rng := torch_rng w; py_rng := py_rng w; calls := calls w ++ [c] |}).

(** [trg[t]] *)
Definition index (x : tokens) (t : nat) : M (list nat) :=
  match rows x !! t with
  | Some r => mret r
  | None => raise (IndexError "index out of bounds")
  end.

(** [RNNEncoder.forward] *)
Definition encoder (src : tokens) : M (FT * FT) :=
  embedded ← with_torch_rng (dropout (encoder_embedding (rows src)));
  '(outputs, hidden) ← with_torch_rng (encoder_rnn embedded);
  mret (outputs, hidden).

(** [RNNDecoder.forward] *)
Definition decoder (input : list nat) (hidden context : FT) : M (prediction * FT) :=
  let input := [input] in
  embedded ← with_torch_rng (dropout (decoder_embedding input));
  let emb_con := cat [embedded; context] 2 in
  '(output, hidden) ← with_torch_rng (decoder_rnn emb_con hidden);
  let output := cat [squeeze embedded 0; squeeze hidden 0; squeeze context 0] 1 in
  let prediction := fc_out output in
  mret (prediction, hidden).

(** [self.decoder(input, hidden, context)], recorded in the log. *)
Definition call_decoder (input : list nat) (hidden context : FT) : M (prediction * FT) :=
  '(output, hidden') ← decoder input hidden context;
  _ ← log_call {| c_input := input; c_hidden := hidden; c_context := context;
                  c_prediction := output; c_hidden_out := hidden' |};
  mret (output, hidden').

(** The local variables the decoding loop updates. *)
Record locals : Type := {
  outputs : list prediction;
  hidden : FT;
  input : list nat
}.

(** [for t in ts: body] *)
Fixpoint for_each {S : Type} (ts : list nat) (body : nat -> S -> M S) (s : S) : M S :=
  match ts with
  | [] => mret s
  | t :: ts' => s' ← body t s; for_each ts' body s'
  end.

Definition loop_body (trg : tokens) (teacher_forcing_ratio : Q) (context : FT)
    (t : nat) (s : locals) : M locals :=
  '(output, hidden) ← call_decoder (input s) (hidden s) context;
  let outputs := <[t := output]> (outputs s) in
  r ← random_random;
  let teacher_force := Qltb r teacher_forcing_ratio in
  let top1 := argmax1 output in
  input ← (if teacher_force then index trg t else mret top1);
  mret {| outputs := outputs; hidden := hidden; input := input |}.

(** [RNNSeq2Seq.forward], up to the local variables at the [return]. *)
Definition forward_locals (src trg : tokens) (teacher_forcing_ratio : Q) : M locals :=
  let batch_size := width trg in
  let trg_len := length (rows trg) in
  let outputs := zeros trg_len batch_size trg_vocab_size in
  '(_, context) ← encoder src;
  let hidden := context in
  input ← index trg 0;
  for_each (seq 1 (trg_len - 1)) (loop_body trg teacher_forcing_ratio context)
    {| outputs := outputs; hidden := hidden; input := input |}.

Definition forward (src trg : tokens) (teacher_forcing_ratio : Q) : M (list prediction) :=
  s ← forward_locals src trg teacher_forcing_ratio;
  mret (outputs s).

(** The context vector of a run: the final hidden state of the encoder. *)
Definition context_of (src : tokens) (w : world) : option FT :=
  match encoder src w with
  | (Ok (_, context), _) => Some context
  | (Raise _, _) => None
  end.

(** The draws of a run all lie in [[0, 1)], as [random.random] promises. *)
Definition unit_draws (w : world) : Prop :=
  forall n, 0 <= py_rng w n /\ py_rng w n < 1.

(** The input the decoder is given next, once step [t] has drawn [r] and the
    decoder has predicted [output]. *)
Definition next_input (trg : tokens) (teacher_forcing_ratio : Q) (t : nat) (r : Q)
    (output : prediction) : option (list nat) :=
  if Qltb r teacher_forcing_ratio then rows trg !! t else Some (argmax1 output).

End Model.

Arguments call : clear implicits.
Arguments world : clear implicits.
Arguments locals : clear implicits.

(** [sub in s] on strings: [sub] occurs somewhere in [s]. *)
Fixpoint contains (sub s : string) : bool :=
  if String.prefix sub s then true
  else match s with
       | EmptyString => false
       | String _ s' => contains sub s'
       end.

Section Init.

Context {G : Type}.

(** [nn.init.normal_(data, mean, std)] fills the tensor with draws from the
    generator of the framework; it is a parameter. *)
Variable normal_ : list Q -> Q -> Q -> G -> list Q * G.

(** [nn.init.constant_(data, val)] *)
Definition constant_ (data : list Q) (val : Q) : list Q := repeat val (length data).

(** [RNNSeq2Seq.init_weights] over [named_parameters()]: each parameter is
    its name and its entries. *)
Fixpoint init_weights (named_parameters : list (string * list Q)) (g : G)
    : list (string * list Q) * G :=
  match named_parameters with
  | [] => ([], g)
  | (name, data) :: rest =>
      let '(data', g1) :=
        if contains "weight" name then normal_ data 0%Q (1 # 100)%Q g
        else (constant_ data 0%Q, g) in
      let '(rest', g2) := init_weights rest g1 in
      ((name, data') :: rest', g2)
  end.

End Init.
End Seq2Seq.

(** ** The shapes in nlptoolkit/models/seq2seq/rnn_mt.py

    The three modules once more, with every tensor replaced by its shape and
    every layer by the rule that gives the shape of its result, or the error
    it raises when the shapes do not fit. *)

Module Shapes.

Local Open Scope nat_scope.

(** The shape of a tensor. *)
Definition shape : Type := list nat.

(** The layers [__init__] builds, by the sizes they are built with. *)
Record Embedding : Type := { num_embeddings : nat; embedding_dim : nat }.
Record GRU : Type := { input_size : nat; hidden_size : nat; num_layers : nat; dropout : Q }.
Record Linear : Type := { in_features : nat; out_features : nat }.

Record RNNEncoder : Type := {
  enc_embedding : Embedding;
  enc_rnn : GRU;
  enc_dropout : Q
}.

Record RNNDecoder : Type := {
  dec_embedding : Embedding;
  dec_rnn : GRU;
  dec_fc_out : Linear;
  dec_dropout : Q
}.

Record RNNSeq2Seq : Type := {
  trg_vocab_size : nat;
  encoder : RNNEncoder;
  decoder : RNNDecoder
}.

(** [RNNEncoder.__init__] *)
Definition RNNEncoder_init (vocab_size embed_dim hidden_size num_layers : nat) (dropout : Q)
    : RNNEncoder :=
  {| enc_embedding := {| num_embeddings := vocab_size; embedding_dim := embed_dim |};
     enc_rnn := {| input_size := embed_dim; hidden_size := hidden_size;
                   num_layers := num_layers;
                   dropout := if 1 <? num_layers then dropout else 0%Q |};
     enc_dropout := dropout |}.

(** [RNNDecoder.__init__] *)
Definition RNNDecoder_init (vocab_size embed_dim hidden_size num_layers : nat) (dropout : Q)
    : RNNDecoder :=
  {| dec_embedding := {| num_embeddings := vocab_size; embedding_dim := embed_dim |};
     dec_rnn := {| input_size := embed_dim + hidden_size; hidden_size := hidden_size;
                   num_layers := num_layers;
                   dropout := if 1 <? num_layers then dropout else 0%Q |};
     dec_fc_out := {| in_features := embed_dim + hidden_size * 2;
                      out_features := vocab_size |};
     dec_dropout := dropout |}.

(** [RNNSeq2Seq.__init__] *)
Definition RNNSeq2Seq_init (src_vocab_size trg_vocab_size embed_dim hidden_size
    num_layers : nat) (dropout : Q) : RNNSeq2Seq :=
  {| trg_vocab_size := trg_vocab_size;
     encoder := RNNEncoder_init src_vocab_size embed_dim hidden_size num_layers dropout;
     decoder := RNNDecoder_init trg_vocab_size embed_dim hidden_size num_layers dropout |}.

(** The sizes a model is built with are positive, as the layers require. *)
Definition positive_sizes (src_vocab_size trg_vocab_size embed_dim hidden_size : nat) : Prop :=
  1 <= src_vocab_size /\ 1 <= trg_vocab_size /\ 1 <= embed_dim /\ 1 <= hidden_size.

(** *** The shape rules of the framework

    The rules are those of tensors without an empty dimension; the properties
    below assume non-empty sequences, batches and layers. *)

(** [nn.Embedding]: one vector per index. *)
Definition embedding_shape (e : Embedding) (x : shape) : shape := x ++ [embedding_dim e].

(** [nn.GRU] on a batched input [[seq len, batch, features]], with or
    without an initial hidden state.  Token tensors of two dimensions give
    no other input. *)
Definition gru_shape (g : GRU) (input : shape) (hx : option shape) : result (shape * shape) :=
  match input with
  | [s; b; i] =>
      if negb (i =? input_size g)
      then Raise (RuntimeError "input.size(-1) must be equal to input_size")
      else
        let h := [num_layers g; b; hidden_size g] in
        match hx with
        | None => Ok ([s; b; hidden_size g], h)
        | Some h0 =>
            if bool_decide (h0 = h) then Ok ([s; b; hidden_size g], h)
            else Raise (RuntimeError "Expected hidden size")
        end
  | _ => Raise (RuntimeError "GRU: Expected input to be 3D")
  end.

(** [torch.cat(tensors, dim)]: the shapes agree everywhere but at [dim]. *)
Definition agree_except (dim : nat) (x y : shape) : bool :=
  bool_decide (length x = length y) &&
  bool_decide (<[dim := 0]> x = <[dim := 0]> y).

Definition cat_shape (tensors : list shape) (dim : nat) : result shape :=
  match tensors with
  | [] => Raise (RuntimeError "torch.cat(): expected a non-empty list of Tensors")
  | x :: rest =>
      if negb (dim <? length x) then Raise (IndexError "Dimension out of range")
      else if forallb (agree_except dim x) rest
      then Ok (<[dim := list_sum (map (fun y => nth dim y 0) tensors)]> x)
      else Raise (RuntimeError "Sizes of tensors must match except in the cat dimension")
  end.

(** [x.squeeze(0)] and [x.unsqueeze(0)] *)
Definition squeeze0 (x : shape) : shape :=
  match x with
  | 1 :: rest => rest
  | _ => x
  end.

Definition unsqueeze0 (x : shape) : shape := 1 :: x.

(** [nn.Linear]: the last dimension goes from [in_features] to
    [out_features]. *)
Definition linear_shape (l : Linear) (x : shape) : result shape :=
  match reverse x with
  | i :: rest =>
      if i =? in_features l then Ok (reverse (out_features l :: rest))
      else Raise (RuntimeError "mat1 and mat2 shapes cannot be multiplied")
  | [] => Raise (RuntimeError "mat1 and mat2 shapes cannot be multiplied")
  end.

(** [x.argmax(1)] *)
Definition argmax1_shape (x : shape) : result shape :=
  if 1 <? length x then Ok (delete 1 x)
  else Raise (IndexError "Dimension out of range").

(** [outputs[t] = output]: the value is broadcast to the slice. *)
Definition broadcastable_to (value slice : shape) : bool :=
  (length value <=? length slice) &&
  forallb (fun p => (fst p =? snd p) || (fst p =? 1))
          (zip (reverse value) (reverse slice)).

(** *** The modules on shapes *)

(** [RNNEncoder.forward], [src = [src len, batch size]] *)
Definition encoder_forward (e : RNNEncoder) (src : nat * nat) : result (shape * shape) :=
  let embedded := embedding_shape (enc_embedding e) [fst src; snd src] in
  '(outputs, hidden) ← gru_shape (enc_rnn e) embedded None;
  mret (outputs, hidden).

(** [RNNDecoder.forward] *)
Definition decoder_forward (d : RNNDecoder) (input hidden context : shape)
    : result (shape * shape) :=
  let input := unsqueeze0 input in
  let embedded := embedding_shape (dec_embedding d) input in
  emb_con ← cat_shape [embedded; context] 2;
  '(output, hidden) ← gru_shape (dec_rnn d) emb_con (Some hidden);
  output ← cat_shape [squeeze0 embedded; squeeze0 hidden; squeeze0 context] 1;
  prediction ← linear_shape (dec_fc_out d) output;
  mret (prediction, hidden).

(** One step of the loop of [RNNSeq2Seq.forward]; [forced] says whether the
    step uses teacher forcing. *)
Definition loop_step (self : RNNSeq2Seq) (trg : nat * nat) (context : shape)
    (forced : bool) (s : shape * shape) : result (shape * shape) :=
  let '(hidden, input) := s in
  '(output, hidden) ← decoder_forward (decoder self) input hidden context;
  if negb (broadcastable_to output [snd trg; trg_vocab_size self])
  then Raise (RuntimeError "The expanded size of the tensor must match the existing size")
  else
    top1 ← argmax1_shape output;
    mret (hidden, if forced then [snd trg] else top1).

Fixpoint loop (self : RNNSeq2Seq) (trg : nat * nat) (context : shape)
    (forced : list bool) (s : shape * shape) : result (shape * shape) :=
  match forced with
  | [] => mret s
  | f :: rest => s' ← loop_step self trg context f s; loop self trg context rest s'
  end.

(** [RNNSeq2Seq.forward] on [src = [src len, batch size]] and
    [trg = [trg len, batch size]]; [forced] holds the outcome of the
    [trg len - 1] comparisons with the ratio. *)
Definition forward (self : RNNSeq2Seq) (src trg : nat * nat) (forced : nat -> bool)
    : result shape :=
  let batch_size := snd trg in
  let trg_len := fst trg in
  let outputs := [trg_len; batch_size; trg_vocab_size self] in
  '(_, context) ← encoder_forward (encoder self) src;
  let hidden := context in
  input ← (if trg_len =? 0 then Raise (IndexError "index out of bounds") else mret [batch_size]);
  _ ← loop self trg context (map forced (seq 0 (trg_len - 1))) (hidden, input);
  mret outputs.

End Shapes.
(** ** Concrete inputs

    Small models and inputs on which the definitions above are run. *)

Module Examples.

Import Torch.

(** Two samples with the same count and different biases. *)
Definition sample_a : Glove.sample :=
  {| Glove.word_embed := [1%R]; Glove.context_embed := [1%R]; Glove.word_bias := 1%R;
     Glove.context_bias := 0%R; Glove.count := 100%R |}.

Definition sample_b : Glove.sample :=
  {| Glove.word_embed := [0%R]; Glove.context_embed := [0%R]; Glove.word_bias := 0%R;
     Glove.context_bias := 0%R; Glove.count := 100%R |}.

(** The value of [wavg_loss] on the two samples, and the value of the
    objective on them. *)
Definition code_value : R :=
  (((2 - ln 100) ^ 2 + (1 - ln 100) ^ 2 + (1 - ln 100) ^ 2 + (ln 100) ^ 2) / 4)%R.

Definition textbook_value : R := (((2 - ln 100) ^ 2 + (ln 100) ^ 2) / 2)%R.

Definition toy_rnn : Rnn.NaiveCustomRNN.t := {|
  Rnn.NaiveCustomRNN.input_size := 2;
  Rnn.NaiveCustomRNN.hidden_size := 1;
  Rnn.NaiveCustomRNN.W_xh := T2 1 [[1%R]; [2%R]];
  Rnn.NaiveCustomRNN.W_hh := T2 1 [[3%R]];
  Rnn.NaiveCustomRNN.b_h := T1 [4%R];
  Rnn.NaiveCustomRNN.W_hq := T2 1 [[5%R]];
  Rnn.NaiveCustomRNN.b_q := T1 [6%R]
|}.

Definition toy_function : Rnn.RNNCell.Function := {|
  Rnn.RNNCell.RNNTanhCell := fun input hx _ _ _ _ => tmap tanh hx;
  Rnn.RNNCell.RNNReLUCell := fun input hx _ _ _ _ => tmap (Rmax 0) hx
|}.

Definition toy_cell (nl : string) : Rnn.RNNCell.t := {|
  Rnn.RNNCell.input_size := 3;
  Rnn.RNNCell.hidden_size := 2;
  Rnn.RNNCell.bias := false;
  Rnn.RNNCell.nonlinearity := nl;
  Rnn.RNNCell.weight_ih := T2 3 [[1%R; 0%R; 0%R]; [0%R; 1%R; 0%R]];
  Rnn.RNNCell.weight_hh := T2 2 [[1%R; 0%R]; [0%R; 1%R]];
  Rnn.RNNCell.bias_ih := None;
  Rnn.RNNCell.bias_hh := None
|}.

Import Seq2Seq.
Local Open Scope Q_scope.

Definition toy_layers : Layers unit nat := {|
  trg_vocab_size := 3;
  encoder_embedding := fun x => length x;
  decoder_embedding := fun x => list_sum (concat x);
  dropout := fun x g => (x, g);
  encoder_rnn := fun e g => ((e, S e), g);
  decoder_rnn := fun e h g => ((e + h, e + h)%nat, g);
  cat := fun l _ => list_sum l;
  squeeze := fun x _ => x;
  fc_out := fun x => [[inject_Z (Z.of_nat x); 20; 7]; [1; 2; inject_Z (Z.of_nat x)]]
|}.

Definition toy_src : tokens := {| width := 2; rows := [[1; 2]; [0; 1]]%nat |}.
Definition toy_trg : tokens := {| width := 2; rows := [[0; 0]; [2; 1]; [1; 1]]%nat |}.

Definition toy_world (draws : nat -> Q) : world unit nat :=
  {| torch_rng := tt; py_rng := draws; calls := [] |}.

Definition draws_a (n : nat) : Q := if Nat.even n then 1 # 4 else 3 # 4.


Definition toy_other_trg : tokens := {| width := 2; rows := [[0; 0]; [9; 9]; [8; 8]]%nat |}.

Definition draws_c (n : nat) : Q := 1 # 4.

Definition toy_params : list (string * list Q) :=
  [("fc_out.weight"%string, [1; 2]); ("fc_out.bias"%string, [3])].

Definition toy_normal_ (data : list Q) (mean std : Q) (g : unit) : list Q * unit :=
  (map (fun _ => mean) data, g).

End Examples.

(** * Properties *)

(** ** Broadcasting and matrix products *)

Module TorchProps.

Import Torch.
Local Open Scope R_scope.

Lemma bdim_same (n : nat) : bdim n n = Some n.
Proof. unfold bdim. rewrite Nat.eqb_refl. reflexivity. Qed.

Lemma bdim_one_r (n : nat) : bdim n 1 = Some n.
Proof.
  unfold bdim. destruct (n =? 1)%nat eqn:E; [|reflexivity].
  reflexivity.
Qed.

Lemma bdim_one_l (n : nat) : bdim 1 n = Some n.
Proof.
  unfold bdim. destruct (1 =? n)%nat eqn:E; [|reflexivity].
  apply Nat.eqb_eq in E. congruence.
Qed.

Lemma expand_same {A : Type} (d : A) (k : nat) (l : list A) :
  length l = k -> expand d k l = l.
Proof. intros <-. unfold expand. rewrite Nat.eqb_refl. reflexivity. Qed.

Lemma expand_single {A : Type} (d x : A) (k : nat) : expand d k [x] = repeat x k.
Proof.
  unfold expand. change (length [x]) with 1%nat.
  destruct (Nat.eqb_spec 1 k) as [<-|]; reflexivity.
Qed.

Lemma map_expand_same (m : nat) (a : list (list R)) :
  Forall (fun r => length r = m) a -> map (expand 0 m) a = a.
Proof.
  induction 1 as [|r a Hr _ IH]; [reflexivity|].
  cbn. rewrite IH, (expand_same 0 m r Hr). reflexivity.
Qed.

Lemma nth_zip_with (f : R -> R -> R) (u v : list R) (j : nat) :
  (j < length u)%nat -> (j < length v)%nat ->
  nth j (zip_with f u v) 0 = f (nth j u 0) (nth j v 0).
Proof.
  revert v j. induction u as [|x u IH]; intros [|y v] j Hu Hv; cbn in *; try lia.
  destruct j; [reflexivity|]. apply IH; lia.
Qed.

Lemma nth_row_zip_with {B : Type} (g : list R -> B -> list R) (a : list (list R))
    (b : list B) (db : B) (i : nat) :
  (i < length a)%nat -> (i < length b)%nat ->
  nth i (zip_with g a b) [] = g (nth i a []) (nth i b db).
Proof.
  revert b i. induction a as [|x a IH]; intros [|y b] i Ha Hb; cbn in *; try lia.
  destruct i; [reflexivity|]. apply IH; lia.
Qed.

Lemma Forall_nth_length (m : nat) (a : list (list R)) (i : nat) :
  Forall (fun r => length r = m) a -> (i < length a)%nat -> length (nth i a []) = m.
Proof.
  intros Ha Hi. exact (proj1 (Forall_nth _ [] a) Ha i Hi).
Qed.

Lemma Forall_zip_with_length (f : R -> R -> R) (m : nat) (a b : list (list R)) :
  Forall (fun r => length r = m) a -> Forall (fun r => length r = m) b ->
  Forall (fun r => length r = m) (zip_with (zip_with f) a b).
Proof.
  intros Ha. revert b. induction Ha as [|r a Hr _ IH]; intros b Hb; [constructor|].
  destruct Hb as [|r' b Hr' Hb]; cbn; constructor.
  - rewrite length_zip_with. lia.
  - apply IH. exact Hb.
Qed.

(** Two matrices of one shape: the operator is applied entry by entry. *)
Lemma broadcast_same_shape (f : R -> R -> R) (n m : nat) (X Y : tensor) :
  matrix n m X -> matrix n m Y ->
  exists Z, broadcast f X Y = Ok Z /\ matrix n m Z /\
    forall i j, (i < n)%nat -> (j < m)%nat -> get2 Z i j = f (get2 X i j) (get2 Y i j).
Proof.
  intros (a & -> & Ha & Wa) (b & -> & Hb & Wb).
  exists (T2 m (zip_with (zip_with f) a b)). split; [|split].
  - unfold broadcast, as2. rewrite Ha, Hb, !bdim_same.
    rewrite !map_expand_same by assumption.
    rewrite !expand_same by assumption. reflexivity.
  - exists (zip_with (zip_with f) a b). split; [reflexivity|]. split.
    + rewrite length_zip_with. lia.
    + apply Forall_zip_with_length; assumption.
  - intros i j Hi Hj. cbn.
    rewrite (nth_row_zip_with (zip_with f) a b []) by lia.
    apply nth_zip_with; rewrite (Forall_nth_length m) by (assumption || lia); exact Hj.
Qed.

Lemma nth_repeat_lt {A : Type} (x d : A) (n i : nat) : (i < n)%nat -> nth i (repeat x n) d = x.
Proof.
  revert i. induction n as [|n IH]; intros i Hi; [lia|].
  destruct i; [reflexivity|]. cbn. apply IH. lia.
Qed.

Lemma Forall_zip_with_repeat (f : R -> R -> R) (m : nat) (a : list (list R)) (v : list R) (n : nat) :
  Forall (fun r => length r = m) a -> length v = m ->
  Forall (fun r => length r = m) (zip_with (zip_with f) a (repeat v n)).
Proof.
  intros Ha Hv. revert n. induction Ha as [|r a Hr _ IH]; intros n; [constructor|].
  destruct n as [|n]; cbn; constructor.
  - rewrite length_zip_with. lia.
  - apply IH.
Qed.

(** A matrix and a vector as long as its rows: the vector is added to every
    row. *)
Lemma broadcast_rows (f : R -> R -> R) (n m : nat) (X : tensor) (v : list R) :
  matrix n m X -> length v = m ->
  exists Z, broadcast f X (T1 v) = Ok Z /\ matrix n m Z /\
    forall i j, (i < n)%nat -> (j < m)%nat -> get2 Z i j = f (get2 X i j) (nth j v 0).
Proof.
  intros (a & -> & Ha & Wa) Hv.
  exists (T2 m (zip_with (zip_with f) a (repeat v n))). split; [|split].
  - unfold broadcast, as2. cbn [length]. rewrite Ha, Hv, bdim_one_r, bdim_same.
    rewrite map_expand_same by assumption.
    rewrite expand_same by assumption.
    cbn [map]. rewrite (expand_same 0 m v Hv), expand_single. reflexivity.
  - exists (zip_with (zip_with f) a (repeat v n)). split; [reflexivity|]. split.
    + rewrite length_zip_with, repeat_length. lia.
    + apply Forall_zip_with_repeat; assumption.
  - intros i j Hi Hj. cbn.
    rewrite (nth_row_zip_with (zip_with f) a (repeat v n) []) by (rewrite ?repeat_length; lia).
    rewrite nth_repeat_lt by exact Hi.
    apply nth_zip_with; [rewrite (Forall_nth_length m) by (assumption || lia)|rewrite Hv]; exact Hj.
Qed.

Lemma tmap_matrix (f : R -> R) (n m : nat) (X : tensor) :
  matrix n m X ->
  matrix n m (tmap f X) /\
  forall i j, (i < n)%nat -> (j < m)%nat -> get2 (tmap f X) i j = f (get2 X i j).
Proof.
  intros (a & -> & Ha & Wa). split.
  - exists (map (map f) a). split; [reflexivity|]. split.
    + rewrite length_map. exact Ha.
    + apply Forall_map. eapply Forall_impl; [exact Wa|].
      intros r Hr. cbn. rewrite length_map. exact Hr.
  - intros i j Hi Hj. cbn.
    rewrite (nth_indep _ [] (map f [])) by (rewrite length_map; lia).
    rewrite map_nth. rewrite (nth_indep _ 0 (f 0)).
    + apply map_nth.
    + rewrite length_map, (Forall_nth_length m) by (assumption || lia). exact Hj.
Qed.


Lemma Rsum_cons (x : R) (l : list R) : Rsum (x :: l) = x + Rsum l.
Proof. reflexivity. Qed.



Lemma sum_upto_shift (n : nat) (f : nat -> R) :
  sum_upto (S n) f = f O + sum_upto n (fun k => f (S k)).
Proof.
  induction n as [|n IH].
  - cbn. lra.
  - change (sum_upto (S (S n)) f) with (sum_upto (S n) f + f (S n)).
    rewrite IH. cbn. lra.
Qed.

Lemma sum_upto_ext (n : nat) (f g : nat -> R) :
  (forall k, (k < n)%nat -> f k = g k) -> sum_upto n f = sum_upto n g.
Proof.
  induction n as [|n IH]; intros Hfg; [reflexivity|].
  cbn. rewrite IH, Hfg by (intros; try apply Hfg; lia). reflexivity.
Qed.

Lemma Rsum_nth (l : list R) : Rsum l = sum_upto (length l) (fun k => nth k l 0).
Proof.
  induction l as [|x l IH]; [reflexivity|].
  cbn [length]. rewrite sum_upto_shift, Rsum_cons, IH. reflexivity.
Qed.

Lemma nth_column (j k : nat) (b : list (list R)) :
  (k < length b)%nat -> nth k (column j b) 0 = nth j (nth k b []) 0.
Proof.
  intros Hk. unfold column.
  rewrite (nth_indep _ 0 (nth j [] 0)) by (rewrite length_map; exact Hk).
  apply (map_nth (fun r => nth j r 0)).
Qed.

Lemma dot_spec (m j : nat) (u : list R) (b : list (list R)) :
  length u = m -> length b = m ->
  dot u (column j b) = sum_upto m (fun k => nth k u 0 * nth j (nth k b []) 0).
Proof.
  intros Hu Hb. unfold dot. rewrite Rsum_nth.
  assert (Hc : length (column j b) = m) by (unfold column; rewrite length_map; exact Hb).
  rewrite length_zip_with, Hu, Hc, Nat.min_id.
  apply sum_upto_ext. intros k Hk.
  rewrite nth_zip_with by lia. rewrite nth_column by lia. reflexivity.
Qed.

(** [torch.mm] on matrices whose inner sizes agree: the entries are the sums
    of products of a row and a column. *)
Lemma mm_spec (n m p : nat) (X Y : tensor) :
  matrix n m X -> matrix m p Y ->
  exists Z, mm X Y = Ok Z /\ matrix n p Z /\
    forall i j, (i < n)%nat -> (j < p)%nat ->
      get2 Z i j = sum_upto m (fun k => get2 X i k * get2 Y k j).
Proof.
  intros (a & -> & Ha & Wa) (b & -> & Hb & Wb).
  set (g := fun r : list R => map (fun j => dot r (column j b)) (seq 0 p)).
  exists (T2 p (map g a)). split; [|split].
  - unfold mm. rewrite Hb, Nat.eqb_refl. reflexivity.
  - exists (map g a). split; [reflexivity|]. split.
    + rewrite length_map. exact Ha.
    + apply Forall_map, Forall_true. intros r. unfold g.
      cbn. rewrite length_map, length_seq. reflexivity.
  - intros i j Hi Hj. cbn.
    rewrite (nth_indep _ [] (g [])) by (rewrite length_map; lia).
    rewrite map_nth. unfold g at 1.
    rewrite (nth_indep _ 0 ((fun j => dot (nth i a []) (column j b)) O))
      by (rewrite length_map, length_seq; exact Hj).
    rewrite (map_nth (fun j => dot (nth i a []) (column j b))).
    rewrite seq_nth by exact Hj. cbn [Nat.add].
    apply dot_spec; [|exact Hb].
    apply Forall_nth_length; [exact Wa | lia].
Qed.

End TorchProps.

(** ** The GloVe script *)

Module GloveProps.

Import Torch Glove TorchProps Examples.
Local Open Scope R_scope.

Lemma weight_at_m_max : Rmin (Rpower (100 / m_max) alpha) 1 = 1.
Proof.
  unfold m_max, alpha. replace (100 / 100) with 1 by lra.
  unfold Rpower. rewrite ln_1, Rmult_0_r, exp_0. apply Rmin_left. lra.
Qed.

(** C1: on the two samples [sample_a] and [sample_b], whose counts are
    positive, the scalar the training step differentiates is [code_value],
    whichever of the two shapes the counts have, while the mean over the batch
    of weight times per-sample loss is [textbook_value]; the two differ by
    one half.  The sum of the dot products has shape [[batch]] and the biases
    have shape [[batch; 1]], so their sum is broadcast to [[batch; batch]]. *)
Theorem wavg_loss_two_samples :
  count sample_a > 0 /\ count sample_b > 0 /\
  step_loss 1 vector_of [sample_a; sample_b] = Ok code_value /\
  step_loss 1 column_of [sample_a; sample_b] = Ok code_value /\
  glove_objective [sample_a; sample_b] = textbook_value /\
  textbook_value = code_value + 1 / 2.
Proof.
  split; [cbn; lra|]. split; [cbn; lra|].
  split; [|split; [|split]].
  - unfold step_loss, wavg_loss. cbn -[Rpower ln Rmin m_max alpha].
    unfold mean. cbn -[Rpower ln Rmin m_max alpha INR].
    rewrite weight_at_m_max. unfold mret, result_ret, code_value. f_equal.
    replace (INR 4) with 4 by (simpl; lra). field.
  - unfold step_loss, wavg_loss. cbn -[Rpower ln Rmin m_max alpha].
    unfold mean. cbn -[Rpower ln Rmin m_max alpha INR].
    rewrite weight_at_m_max. unfold mret, result_ret, code_value. f_equal.
    replace (INR 4) with 4 by (simpl; lra). field.
  - unfold glove_objective, sample_weight, sample_loss, dot, textbook_value.
    cbn -[Rpower ln Rmin INR].
    pose proof weight_at_m_max as Hw. unfold m_max, alpha in Hw. rewrite Hw.
    replace (INR 2) with 2 by (simpl; lra). field.
  - unfold textbook_value, code_value. field.
Qed.

(** C7: the file written is ['glove.vec'], it has one line per vocabulary
    token, and the vector of token [i] is the entrywise sum of row [i] of the
    word-embedding matrix and row [i] of the context-embedding matrix. *)
Theorem serialize_sum (vocab : list string) (dim : nat) (w c : tensor) :
  matrix (length vocab) dim w ->
  matrix (length vocab) dim c ->
  exists f,
    serialize vocab w c = Ok f /\
    path f = "glove.vec"%string /\
    length (lines f) = length vocab /\
    forall i token, vocab !! i = Some token ->
      exists vec,
        lines f !! i = Some (token, vec) /\
        length vec = dim /\
        forall j, (j < dim)%nat -> nth j vec 0 = get2 w i j + get2 c i j.
Proof.
  intros Hw Hc.
  destruct (broadcast_same_shape Rplus _ _ _ _ Hw Hc) as (z & Ez & (a & -> & Ha & Wa) & Gz).
  exists {| path := "glove.vec"; lines := zip vocab a |}.
  split; [|split; [reflexivity|split]].
  - unfold serialize, tadd. rewrite Ez. cbn [mbind result_bind save_pretrained].
    rewrite Ha, Nat.leb_refl. reflexivity.
  - cbn [lines]. rewrite length_zip_with. lia.
  - intros i token Hi.
    assert (Hlt : (i < length a)%nat) by (apply lookup_lt_Some in Hi; lia).
    destruct (lookup_lt_is_Some_2 a i Hlt) as [vec Hvec].
    exists vec. split; [|split].
    + cbn [lines]. rewrite lookup_zip_with, Hi. cbn. rewrite Hvec. reflexivity.
    + rewrite Forall_lookup in Wa. exact (Wa i vec Hvec).
    + intros j Hj. rewrite <- (Gz i j) by lia. cbn.
      rewrite (nth_lookup_Some a i [] vec Hvec). reflexivity.
Qed.

Lemma serialize_sum_witness :
  exists f,
    serialize ["the"; "cat"]%string (T2 2 [[1; 2]; [3; 4]]) (T2 2 [[10; 20]; [30; 40]]) = Ok f /\
    path f = "glove.vec"%string /\
    length (lines f) = 2%nat /\
    forall i token, ["the"; "cat"]%string !! i = Some token ->
      exists vec,
        lines f !! i = Some (token, vec) /\
        length vec = 2%nat /\
        forall j, (j < 2)%nat ->
          nth j vec 0 = get2 (T2 2 [[1; 2]; [3; 4]]) i j + get2 (T2 2 [[10; 20]; [30; 40]]) i j.
Proof.
  apply (serialize_sum ["the"; "cat"]%string 2).
  - eexists; split; [reflexivity | split; [reflexivity | repeat constructor]].
  - eexists; split; [reflexivity | split; [reflexivity | repeat constructor]].
Defined.

End GloveProps.

(** ** The RNN cells *)

Module RnnProps.

Import Torch Rnn TorchProps Examples.
Local Open Scope R_scope.

(** C4: on an input of shape [[batch; input_size]] and a hidden state of
    shape [[batch; hidden_size]], [forward] returns the pair [(O, H')] with
    [H' = tanh (X W_xh + H W_hh + b_h)] and [O = H' W_hq + b_q], entry by
    entry. *)
Theorem naive_forward_elman (self : NaiveCustomRNN.t) (batch : nat) (X H : tensor) :
  NaiveCustomRNN.shaped self ->
  matrix batch (NaiveCustomRNN.input_size self) X ->
  matrix batch (NaiveCustomRNN.hidden_size self) H ->
  exists O H',
    NaiveCustomRNN.forward self X (Some H) = Ok (O, H') /\
    matrix batch (NaiveCustomRNN.hidden_size self) H' /\
    matrix batch (NaiveCustomRNN.hidden_size self) O /\
    forall i j, (i < batch)%nat -> (j < NaiveCustomRNN.hidden_size self)%nat ->
      get2 H' i j
      = elman_hidden (NaiveCustomRNN.input_size self) (NaiveCustomRNN.hidden_size self)
          X H (NaiveCustomRNN.W_xh self) (NaiveCustomRNN.W_hh self)
          (NaiveCustomRNN.b_h self) i j /\
      get2 O i j
      = elman_output (NaiveCustomRNN.hidden_size self) H' (NaiveCustomRNN.W_hq self)
          (NaiveCustomRNN.b_q self) i j.
Proof.
  intros (Hxh & Hhh & (bh & Ebh & Lbh) & Hhq & (bq & Ebq & Lbq)) HX HH.
  destruct (mm_spec _ _ _ _ _ HX Hxh) as (xw & Exw & Mxw & Gxw).
  destruct (mm_spec _ _ _ _ _ HH Hhh) as (hw & Ehw & Mhw & Ghw).
  destruct (broadcast_same_shape Rplus _ _ _ _ Mxw Mhw) as (s & Es & Ms & Gs).
  destruct (broadcast_rows Rplus _ _ _ bh Ms Lbh) as (hy & Ehy & Mhy & Ghy).
  destruct (tmap_matrix tanh _ _ _ Mhy) as (Mt & Gt).
  destruct (mm_spec _ _ _ _ _ Mt Hhq) as (o & Eo & Mo & Go).
  destruct (broadcast_rows Rplus _ _ _ bq Mo Lbq) as (out & Eout & Mout & Gout).
  exists out, (tmap tanh hy). split; [|split; [exact Mt|split; [exact Mout|]]].
  - unfold NaiveCustomRNN.forward, default_hx, tadd. cbn [mbind result_bind mret result_ret].
    rewrite Exw. cbn [mbind result_bind]. rewrite Ehw. cbn [mbind result_bind].
    rewrite Es. cbn [mbind result_bind]. rewrite Ebh, Ehy. cbn [mbind result_bind].
    rewrite Eo. cbn [mbind result_bind]. rewrite Ebq, Eout. reflexivity.
  - intros i j Hi Hj. split.
    + rewrite Gt, Ghy, Gs, Gxw, Ghw by assumption.
      unfold elman_hidden. rewrite Ebh. reflexivity.
    + rewrite Gout, Go by assumption.
      unfold elman_output. rewrite Ebq. reflexivity.
Qed.


Ltac concrete_matrix :=
  eexists; split; [reflexivity | split; [reflexivity | repeat constructor]].

Lemma naive_forward_elman_witness :
  exists O H',
    NaiveCustomRNN.forward toy_rnn (T2 2 [[1; 1]]) (Some (T2 1 [[0]])) = Ok (O, H') /\
    matrix 1 1 H' /\ matrix 1 1 O /\
    forall i j, (i < 1)%nat -> (j < 1)%nat ->
      get2 H' i j
      = elman_hidden 2 1 (T2 2 [[1; 1]]) (T2 1 [[0]]) (T2 1 [[1]; [2]]) (T2 1 [[3]]) (T1 [4]) i j /\
      get2 O i j = elman_output 1 H' (T2 1 [[5]]) (T1 [6]) i j.
Proof.
  apply (naive_forward_elman toy_rnn 1 (T2 2 [[1; 1]]) (T2 1 [[0]])).
  - repeat split; try concrete_matrix; eexists; split; reflexivity.
  - concrete_matrix.
  - concrete_matrix.
Defined.

Section Cell.

Import RNNCell.
Context `{Function}.

Local Open Scope string_scope.

Lemma size_shape2 (t : tensor) (n m : nat) :
  shape t = [n; m] -> size t 0 = Ok n /\ size t 1 = Ok m.
Proof. intros E. unfold size. rewrite E. split; reflexivity. Qed.

Lemma shape_new_zeros (n m : nat) : shape (new_zeros n m) = [n; m].
Proof. cbn. rewrite repeat_length. reflexivity. Qed.

Lemma neqb_refl (n : nat) : negb (n =? n)%nat = false.
Proof. rewrite Nat.eqb_refl. reflexivity. Qed.

(** The hidden state [forward] works with once both checks have passed. *)
Lemma checks_pass_run (self : RNNCell.t) (input : tensor) (hx : option tensor) :
  checks_pass self input hx ->
  exists h,
    default_hx input (hidden_size self) hx = Ok h /\
    check_forward_input self input = Ok tt /\
    check_forward_hidden self input h "" = Ok tt.
Proof.
  intros (batch & Hin & Hhx).
  destruct (size_shape2 _ _ _ Hin) as [S0 S1].
  assert (Hci : check_forward_input self input = Ok tt).
  { unfold check_forward_input. rewrite S1. cbn. rewrite neqb_refl. reflexivity. }
  assert (Hch : forall h, shape h = [batch; hidden_size self] ->
                  check_forward_hidden self input h "" = Ok tt).
  { intros h Hh. destruct (size_shape2 _ _ _ Hh) as [T0 T1'].
    unfold check_forward_hidden. rewrite S0, T0. cbn. rewrite neqb_refl, T1'. cbn.
    rewrite neqb_refl. reflexivity. }
  destruct Hhx as [-> | (h & -> & Hh)].
  - exists (new_zeros batch (hidden_size self)). split; [|split; [exact Hci|]].
    + unfold default_hx. rewrite S0. reflexivity.
    + apply Hch, shape_new_zeros.
  - exists h. split; [reflexivity|]. split; [exact Hci | exact (Hch h Hh)].
Qed.


Lemma unknown_not_shape_error (nl : string) :
  ~ shape_error (RuntimeError (unknown_nonlinearity_msg nl)).
Proof.
  intros [(g & e & E) | [(g & e & E) | (g & e & E)]]; discriminate E.
Qed.

Lemma shape_error_not_unknown (self : RNNCell.t) (e : exn) :
  shape_error e -> Raise (A := tensor) e <> Raise (RuntimeError (unknown_nonlinearity_msg (nonlinearity self))).
Proof.
  intros He E. injection E as ->. exact (unknown_not_shape_error _ He).
Qed.

(** What [forward] returns once both checks have passed: the dispatch on the
    nonlinearity. *)
Lemma forward_checked (self : RNNCell.t) (input : tensor) (hx : option tensor) (h : tensor) :
  default_hx input (hidden_size self) hx = Ok h ->
  check_forward_input self input = Ok tt ->
  check_forward_hidden self input h "" = Ok tt ->
  forward self input hx =
    if String.eqb (nonlinearity self) "tanh"
    then Ok (RNNTanhCell input h (weight_ih self) (weight_hh self) (bias_ih self) (bias_hh self))
    else if String.eqb (nonlinearity self) "relu"
    then Ok (RNNReLUCell input h (weight_ih self) (weight_hh self) (bias_ih self) (bias_hh self))
    else Raise (RuntimeError (unknown_nonlinearity_msg (nonlinearity self))).
Proof.
  intros Hd Hi Hh. unfold forward. rewrite Hi. cbn [mbind result_bind].
  rewrite Hd. cbn [mbind result_bind]. rewrite Hh. cbn [mbind result_bind].
  destruct (String.eqb (nonlinearity self) "tanh"); [reflexivity|].
  destruct (String.eqb (nonlinearity self) "relu"); reflexivity.
Qed.

(** Either both checks pass, or [forward] raises the error of a check (or of
    [size]), which is not the error of the dispatch. *)
Lemma checks_pass_or_error (self : RNNCell.t) (input : tensor) (hx : option tensor) :
  checks_pass self input hx \/
  exists e, forward self input hx = Raise e /\
            e <> RuntimeError (unknown_nonlinearity_msg (nonlinearity self)).
Proof.
  unfold forward, check_forward_input.
  destruct input as [v | m a]; cbn [size shape lookup list_lookup mbind result_bind].
  { right. eexists. split; [reflexivity | discriminate]. }
  destruct (Nat.eqb_spec m (input_size self)) as [Em | Em]; cbn [negb].
  2: { right. eexists. split; [reflexivity | discriminate]. }
  cbn [mret result_ret mbind result_bind]. subst m.
  destruct hx as [h|].
  2: { left. exists (length a). split; [reflexivity | left; reflexivity]. }
  unfold default_hx, check_forward_hidden.
  cbn [mret result_ret mbind result_bind size shape lookup list_lookup].
  destruct h as [v | p b]; cbn [size shape lookup list_lookup mbind result_bind].
  { right. destruct (Nat.eqb_spec (length a) (length v)); cbn [negb];
      eexists; (split; [reflexivity | discriminate]). }
  destruct (Nat.eqb_spec (length a) (length b)) as [Eb | Eb]; cbn [negb].
  2: { right. eexists. split; [reflexivity | discriminate]. }
  destruct (Nat.eqb_spec p (hidden_size self)) as [Ep | Ep]; cbn [negb].
  2: { right. eexists. split; [reflexivity | discriminate]. }
  left. exists (length a). split; [reflexivity|].
  right. exists (T2 p b). split; [reflexivity|]. cbn. congruence.
Qed.

(** C5, as amended: the error of the dispatch is raised exactly when the
    nonlinearity is neither ['tanh'] nor ['relu'] and both shape checks have
    passed; past the checks ['tanh'] selects [RNNTanhCell] and ['relu']
    selects [RNNReLUCell]; [_get_activation_fn] returns [F.relu] for
    ['relu'], [F.tanh] for ['tanh'] and raises for every other string. *)
Theorem forward_dispatch (self : RNNCell.t) (input : tensor) (hx : option tensor) :
  (raises_unknown_nonlinearity self (forward self input hx) <->
   nonlinearity self <> "tanh" /\ nonlinearity self <> "relu" /\
   checks_pass self input hx) /\
  (checks_pass self input hx ->
   exists h,
     default_hx input (hidden_size self) hx = Ok h /\
     (nonlinearity self = "tanh" ->
      forward self input hx
      = Ok (RNNTanhCell input h (weight_ih self) (weight_hh self)
              (bias_ih self) (bias_hh self))) /\
     (nonlinearity self = "relu" ->
      forward self input hx
      = Ok (RNNReLUCell input h (weight_ih self) (weight_hh self)
              (bias_ih self) (bias_hh self)))) /\
  _get_activation_fn "relu" = Ok F_relu /\
  _get_activation_fn "tanh" = Ok F_tanh /\
  (forall activation, activation <> "relu" -> activation <> "tanh" ->
     _get_activation_fn activation
     = Raise (RuntimeError ("activation should be relu/tanh, not " ++ activation))).
Proof.
  split; [|split; [|split; [reflexivity|split; [reflexivity|]]]].
  - unfold raises_unknown_nonlinearity. split.
    + intros Hr. destruct (checks_pass_or_error self input hx) as [Hp | (e & He & Hne)].
      * destruct (checks_pass_run self input hx Hp) as (h & Hd & Hi & Hh).
        rewrite (forward_checked self input hx h Hd Hi Hh) in Hr.
        destruct (String.eqb_spec (nonlinearity self) "tanh"); [discriminate|].
        destruct (String.eqb_spec (nonlinearity self) "relu"); [discriminate|].
        auto.
      * rewrite He in Hr. congruence.
    + intros (Ht & Hr & Hp).
      destruct (checks_pass_run self input hx Hp) as (h & Hd & Hi & Hh).
      rewrite (forward_checked self input hx h Hd Hi Hh).
      destruct (String.eqb_spec (nonlinearity self) "tanh"); [contradiction|].
      destruct (String.eqb_spec (nonlinearity self) "relu"); [contradiction|].
      reflexivity.
  - intros Hp. destruct (checks_pass_run self input hx Hp) as (h & Hd & Hi & Hh).
    exists h. split; [exact Hd|].
    rewrite (forward_checked self input hx h Hd Hi Hh).
    split; intros ->; reflexivity.
  - intros activation Hr Ht. unfold _get_activation_fn.
    destruct (String.eqb_spec activation "relu"); [contradiction|].
    destruct (String.eqb_spec activation "tanh"); [contradiction|].
    reflexivity.
Qed.

(** C6: with a two-dimensional input and a two-dimensional hidden state,
    [forward] raises the error of a shape check exactly when the feature
    count differs from [input_size], the batch sizes differ, or the hidden
    feature count differs from [hidden_size]. *)
Theorem forward_shape_error (self : RNNCell.t) (features : nat) (x : list (list R))
    (hfeatures : nat) (h : list (list R)) :
  raises_shape_error (forward self (T2 features x) (Some (T2 hfeatures h))) <->
  features <> input_size self \/ length h <> length x \/ hfeatures <> hidden_size self.
Proof.
  unfold forward, check_forward_input, default_hx, check_forward_hidden.
  cbn [size shape lookup list_lookup mbind result_bind mret result_ret].
  destruct (Nat.eqb_spec features (input_size self)) as [Em | Em];
    cbn [negb mbind result_bind mret result_ret].
  2: { split; [intros _; left; exact Em | intros _].
       left. eexists _, _. reflexivity. }
  destruct (Nat.eqb_spec (length x) (length h)) as [Eb | Eb];
    cbn [negb mbind result_bind mret result_ret].
  2: { split; [intros _; right; left; congruence | intros _].
       right. left. eexists _, _. reflexivity. }
  destruct (Nat.eqb_spec hfeatures (hidden_size self)) as [Ep | Ep];
    cbn [negb mbind result_bind mret result_ret].
  2: { split; [intros _; right; right; exact Ep | intros _].
       right. right. eexists _, _. reflexivity. }
  split.
  - destruct (String.eqb (nonlinearity self) "tanh"); [intros []|].
    destruct (String.eqb (nonlinearity self) "relu"); [intros []|].
    intros He. destruct (unknown_not_shape_error _ He).
  - intros [E | [E | E]]; congruence.
Qed.

(** C10: without a hidden state both cells run on the zero matrix of shape
    [[batch; hidden_size]]. *)
Theorem forward_default_hidden (self : RNNCell.t) (naive : NaiveCustomRNN.t)
    (features : nat) (x : list (list R)) :
  forward self (T2 features x) None
  = forward self (T2 features x) (Some (new_zeros (length x) (hidden_size self))) /\
  NaiveCustomRNN.forward naive (T2 features x) None
  = NaiveCustomRNN.forward naive (T2 features x)
      (Some (new_zeros (length x) (NaiveCustomRNN.hidden_size naive))).
Proof. split; reflexivity. Qed.

End Cell.

Import RNNCell.
Local Open Scope string_scope.

(** C5 as stated fails: a cell with an unknown nonlinearity and an input of
    the wrong width raises the error of the shape check. *)
Lemma forward_unknown_nonlinearity_masked :
  forward (H := toy_function) (toy_cell "sigmoid") (T2 2 [[1; 2]]) None
  = Raise (RuntimeError "input has inconsistent input_size: got 2, expected 3") /\
  ~ (raises_unknown_nonlinearity (toy_cell "sigmoid")
       (forward (H := toy_function) (toy_cell "sigmoid") (T2 2 [[1; 2]]) None)
     <-> nonlinearity (toy_cell "sigmoid") <> "tanh"
         /\ nonlinearity (toy_cell "sigmoid") <> "relu").
Proof.
  assert (E : forward (H := toy_function) (toy_cell "sigmoid") (T2 2 [[1; 2]]) None
              = Raise (RuntimeError "input has inconsistent input_size: got 2, expected 3"))
    by reflexivity.
  split; [exact E|].
  intros [_ Hr]. unfold raises_unknown_nonlinearity in Hr. rewrite E in Hr.
  assert (Ht : nonlinearity (toy_cell "sigmoid") <> "tanh") by discriminate.
  assert (Hl : nonlinearity (toy_cell "sigmoid") <> "relu") by discriminate.
  specialize (Hr (conj Ht Hl)). discriminate Hr.
Qed.

Lemma forward_dispatch_witness :
  exists h,
    default_hx (T2 3 [[1; 2; 3]]) 2 None = Ok h /\
    forward (H := toy_function) (toy_cell "tanh") (T2 3 [[1; 2; 3]]) None
    = Ok (tmap tanh h) /\
    forward (H := toy_function) (toy_cell "relu") (T2 3 [[1; 2; 3]]) None
    = Ok (tmap (Rmax 0) h).
Proof.
  assert (Hp : forall nl, checks_pass (toy_cell nl) (T2 3 [[1; 2; 3]]) None).
  { intros nl. exists 1%nat. split; [reflexivity | left; reflexivity]. }
  destruct (proj1 (proj2 (forward_dispatch (H := toy_function) (toy_cell "tanh")
                            (T2 3 [[1; 2; 3]]) None)) (Hp _)) as (h & Hd & Ht & _).
  destruct (proj1 (proj2 (forward_dispatch (H := toy_function) (toy_cell "relu")
                            (T2 3 [[1; 2; 3]]) None)) (Hp _)) as (h' & Hd' & _ & Hr).
  exists h. split; [exact Hd|]. split; [exact (Ht eq_refl)|].
  cbn in Hd, Hd'. injection Hd as <-. injection Hd' as <-. exact (Hr eq_refl).
Defined.

End RnnProps.

(** ** The seq2seq driver *)

Module Seq2SeqProps.

Import Seq2Seq Examples.
Local Open Scope Q_scope.

Lemma Qltb_true (x y : Q) : Qltb x y = true <-> x < y.
Proof.
  unfold Qltb. rewrite negb_true_iff. split.
  - intros E. apply Qnot_le_lt. intros L. apply Qle_bool_iff in L. congruence.
  - intros L. destruct (Qle_bool y x) eqn:E; [|reflexivity].
    apply Qle_bool_iff in E. exfalso. exact (Qlt_not_le _ _ L E).
Qed.

Section Run.

Context {G FT : Type} `{Layers G FT}.

Lemma encoder_frame (src : tokens) (w : world G FT) :
  exists r g, forall w', torch_rng w' = torch_rng w ->
    encoder src w' = (Ok r, set_torch_rng g w').
Proof.
  destruct (dropout (encoder_embedding (rows src)) (torch_rng w)) as [e g1] eqn:E1.
  destruct (encoder_rnn e g1) as [[o h] g2] eqn:E2.
  exists (o, h), g2. intros w' Hw.
  unfold encoder, with_torch_rng, mbind, M_bind, mret, M_ret.
  rewrite Hw, E1. cbn. rewrite E2. reflexivity.
Qed.

Lemma decoder_frame (i : list nat) (h c : FT) (w : world G FT) :
  exists r g, forall w', torch_rng w' = torch_rng w ->
    decoder i h c w' = (Ok r, set_torch_rng g w').
Proof.
  destruct (dropout (decoder_embedding [i]) (torch_rng w)) as [e g1] eqn:E1.
  destruct (decoder_rnn (cat [e; c] 2) h g1) as [[o h'] g2] eqn:E2.
  eexists (_, h'), g2. intros w' Hw.
  unfold decoder, with_torch_rng, mbind, M_bind, mret, M_ret.
  rewrite Hw, E1. cbn. rewrite E2. reflexivity.
Qed.

Lemma loop_body_run (trg : tokens) (tfr : Q) (ctx : FT) (t : nat)
    (s : locals FT) (w : world G FT) :
  exists p h' g,
    forall w', torch_rng w' = torch_rng w ->
      let c := {| c_input := input s; c_hidden := hidden s; c_context := ctx;
                  c_prediction := p; c_hidden_out := h' |} in
      loop_body trg tfr ctx t s w' =
        match next_input trg tfr t (py_rng w' O) p with
        | Some i => (Ok {| outputs := <[t := p]> (outputs s); hidden := h'; input := i |},
                     after_step g c w')
        | None => (Raise (IndexError "index out of bounds"), after_step g c w')
        end.
Proof.
  destruct (decoder_frame (input s) (hidden s) ctx w) as [[p h'] [g Hd]].
  exists p, h', g. intros w' Hw c.
  unfold loop_body, call_decoder, mbind, M_bind. rewrite (Hd w' Hw).
  cbn. unfold next_input, index.
  destruct (Qltb (py_rng w' 0%nat) tfr); [|reflexivity].
  destruct (rows trg !! t); reflexivity.
Qed.


Lemma next_input_some (trg : tokens) (tfr : Q) (t : nat) (r : Q) (p : prediction) :
  (t < length (rows trg))%nat -> is_Some (next_input trg tfr t r p).
Proof.
  intros Ht. unfold next_input. destruct (Qltb r tfr); [|eauto].
  apply lookup_lt_is_Some_2. exact Ht.
Qed.

(** The decoding loop from step [a] on, for [n] steps that stay inside the
    target sequence. *)
Lemma loop_run (trg : tokens) (tfr : Q) (ctx : FT) (n : nat) :
  forall (a : nat) (s : locals FT) (w : world G FT),
    (a + n <= length (rows trg))%nat ->
    exists s' w' new,
      for_each (seq a n) (loop_body trg tfr ctx) s w = (Ok s', w') /\
      calls w' = calls w ++ new /\
      length new = n /\
      (forall k, py_rng w' k = py_rng w (n + k)%nat) /\
      Forall (fun c => c_context c = ctx) new /\
      (forall c, new !! O = Some c -> c_hidden c = hidden s) /\
      (map c_input new ++ [input s']) !! O = Some (input s) /\
      (forall k c, new !! k = Some c ->
         (map c_input new ++ [input s']) !! S k
         = next_input trg tfr (a + k) (py_rng w k) (c_prediction c)) /\
      length (outputs s') = length (outputs s) /\
      (forall i, (i < a)%nat -> outputs s' !! i = outputs s !! i).
Proof.
  induction n as [|n IH]; intros a s w Hlen.
  - exists s, w, []. cbn. rewrite app_nil_r.
    repeat split; auto; intros; discriminate.
  - destruct (loop_body_run trg tfr ctx a s w) as (p & h' & g & Hb).
    specialize (Hb w eq_refl). cbn zeta in Hb.
    destruct (next_input_some trg tfr a (py_rng w O) p) as [i Hi]; [lia|].
    rewrite Hi in Hb.
    set (c := {| c_input := input s; c_hidden := hidden s; c_context := ctx;
                 c_prediction := p; c_hidden_out := h' |}) in *.
    set (s1 := {| outputs := <[a := p]> (outputs s); hidden := h'; input := i |}) in *.
    destruct (IH (S a) s1 (after_step g c w)) as
      (s' & w' & new & Hrun & Hcalls & Hn & Hrng & Hctx & Hhid & Hin0 & Hin & Hol & Hout);
      [lia|].
    exists s', w', (c :: new).
    split.
    { cbn [seq for_each]. unfold mbind, M_bind. rewrite Hb. exact Hrun. }
    split. { rewrite Hcalls. cbn. rewrite <- app_assoc. reflexivity. }
    split. { cbn. lia. }
    split. { intros k. rewrite Hrng. reflexivity. }
    split. { constructor; [reflexivity | exact Hctx]. }
    split. { intros c0 Hc0. cbn in Hc0. injection Hc0 as <-. reflexivity. }
    split. { reflexivity. }
    split.
    { intros [|k] c0 Hk.
      - cbn in Hk. injection Hk as <-. cbn [map app lookup list_lookup].
        change ((map c_input new ++ [input s']) !! O = next_input trg tfr (a + 0) (py_rng w O) p).
        rewrite Hin0, Nat.add_0_r, Hi. reflexivity.
      - cbn in Hk. cbn [map app].
        change ((map c_input new ++ [input s']) !! S k
                = next_input trg tfr (a + S k) (py_rng w (S k)) (c_prediction c0)).
        rewrite (Hin k c0 Hk). replace (S a + k)%nat with (a + S k)%nat by lia.
        reflexivity. }
    split. { rewrite Hol. cbn. apply length_insert. }
    intros j Hj. rewrite Hout by lia. cbn.
    apply list_lookup_insert_ne. lia.
Qed.


(** [forward_locals] is the encoder, the first target row, then the loop. *)
Lemma forward_locals_unfold (src trg : tokens) (tfr : Q) (w : world G FT) :
  exists ctx g,
    context_of src w = Some ctx /\
    forall w', torch_rng w' = torch_rng w ->
      forward_locals src trg tfr w' =
        match rows trg !! O with
        | Some i0 =>
            for_each (seq 1 (length (rows trg) - 1)) (loop_body trg tfr ctx)
              {| outputs := zeros (length (rows trg)) (width trg) trg_vocab_size;
                 hidden := ctx; input := i0 |} (set_torch_rng g w')
        | None => (Raise (IndexError "index out of bounds"), set_torch_rng g w')
        end.
Proof.
  destruct (encoder_frame src w) as [[o ctx] [g He]].
  exists ctx, g. split.
  - unfold context_of. rewrite (He w eq_refl). reflexivity.
  - intros w' Hw. unfold forward_locals, mbind, M_bind. rewrite (He w' Hw).
    unfold index. destruct (rows trg !! O); reflexivity.
Qed.

Lemma forward_unfold (src trg : tokens) (tfr : Q) (w : world G FT) :
  forward src trg tfr w =
    match forward_locals src trg tfr w with
    | (Ok s, w') => (Ok (outputs s), w')
    | (Raise e, w') => (Raise e, w')
    end.
Proof. reflexivity. Qed.

(** A complete run: it returns exactly when the target has a first row, and
    then the loop has made one decoder call per remaining row. *)
Lemma forward_locals_run (src trg : tokens) (tfr : Q) (w : world G FT) :
  exists ctx, context_of src w = Some ctx /\
  match rows trg !! O with
  | None =>
      exists w', forward_locals src trg tfr w = (Raise (IndexError "index out of bounds"), w')
                 /\ calls w' = calls w
  | Some i0 =>
      exists s' w' new,
        forward_locals src trg tfr w = (Ok s', w') /\
        calls w' = calls w ++ new /\
        length new = (length (rows trg) - 1)%nat /\
        Forall (fun c => c_context c = ctx) new /\
        (forall c, new !! O = Some c -> c_hidden c = ctx) /\
        (map c_input new ++ [input s']) !! O = Some i0 /\
        (forall k c, new !! k = Some c ->
           (map c_input new ++ [input s']) !! S k
           = next_input trg tfr (S k) (py_rng w k) (c_prediction c)) /\
        length (outputs s') = length (rows trg) /\
        outputs s' !! O = zeros (length (rows trg)) (width trg) trg_vocab_size !! O
  end.
Proof.
  destruct (forward_locals_unfold src trg tfr w) as (ctx & g & Hctx & Hf).
  exists ctx. split; [exact Hctx|]. rewrite (Hf w eq_refl).
  destruct (rows trg !! O) as [i0|] eqn:E0.
  - assert (Hlen : (1 <= length (rows trg))%nat).
    { apply lookup_lt_Some in E0. lia. }
    edestruct (loop_run trg tfr ctx (length (rows trg) - 1) 1) as
      (s' & w' & new & Hrun & Hcalls & Hn & Hrng & Hc & Hhid & Hin0 & Hin & Hol & Hout);
      [lia|].
    exists s', w', new. split; [exact Hrun|].
    repeat split; try assumption.
    + rewrite Hol. unfold zeros. apply repeat_length.
    + apply Hout. lia.
  - eexists. split; reflexivity.
Qed.





Lemma unit_draws_free (tfr : Q) (w : world G FT) :
  unit_draws w -> tfr <= 0 -> forall k, Qltb (py_rng w k) tfr = false.
Proof.
  intros Hu Ht k. destruct (Qltb (py_rng w k) tfr) eqn:E; [|reflexivity].
  apply Qltb_true in E. destruct (Hu k) as [Hge _].
  exfalso. apply (Qlt_not_le _ _ E). eapply Qle_trans; eassumption.
Qed.


(** The decoder calls of a complete run, without the locals. *)
Lemma forward_calls (src trg : tokens) (tfr : Q) (w : world G FT) :
  exists r w' new,
    forward src trg tfr w = (r, w') /\
    calls w' = calls w ++ new /\
    length new = (length (rows trg) - 1)%nat /\
    (forall c, new !! O = Some c -> rows trg !! O = Some (c_input c)) /\
    (forall k c c', new !! k = Some c -> new !! S k = Some c' ->
       next_input trg tfr (S k) (py_rng w k) (c_prediction c) = Some (c_input c')).
Proof.
  rewrite forward_unfold.
  destruct (forward_locals_run src trg tfr w) as (ctx & _ & Hrun).
  destruct (rows trg !! O) as [i0|] eqn:E0.
  - destruct Hrun as (s' & w' & new & Hf & Hcalls & Hn & _ & _ & Hin0 & Hin & _).
    rewrite Hf. exists (Ok (outputs s')), w', new.
    repeat split; try assumption.
    + intros c Hc. rewrite lookup_app_l in Hin0.
      * rewrite list_lookup_fmap, Hc in Hin0. cbn in Hin0. congruence.
      * rewrite length_map. apply lookup_lt_Some in Hc. exact Hc.
    + intros k c c' Hc Hc'. rewrite <- (Hin k c Hc).
      rewrite lookup_app_l.
      * rewrite list_lookup_fmap, Hc'. reflexivity.
      * rewrite length_map. apply lookup_lt_Some in Hc'. exact Hc'.
  - destruct Hrun as (w' & Hf & Hcalls). rewrite Hf.
    exists (Raise (IndexError "index out of bounds")), w', [].
    rewrite app_nil_r. apply lookup_ge_None in E0.
    repeat split; try assumption; try (intros; discriminate).
    cbn. lia.
Qed.





End Run.

Example toy_forward :
  fst (forward (H := toy_layers) toy_src toy_trg (1 # 2) (toy_world draws_a))
  = Ok [ [[0; 0; 0]; [0; 0; 0]];
         [[inject_Z 9; 20; 7]; [1; 2; inject_Z 9]];
         [[inject_Z 18; 20; 7]; [1; 2; inject_Z 18]] ].
Proof. vm_compute. reflexivity. Qed.



Lemma draws_a_unit : unit_draws (toy_world draws_a).
Proof.
  intros n. cbn. unfold draws_a. destruct (Nat.even n); split; vm_compute; congruence.
Qed.



End Seq2SeqProps.

(** ** More on the GloVe training step *)

Module GloveBatches.

Import Torch Glove TorchProps Examples GloveProps.

Local Open Scope R_scope.

Section Outer.

Context {A : Type}.
Implicit Types (l : list A) (F : A -> A -> R) (g : A -> R) (f : R -> R -> R).

Lemma zip_with_map_same {B C D : Type} (h : B -> C -> D) (a : A -> B) (b : A -> C) l :
  zip_with h (map a l) (map b l) = map (fun x => h (a x) (b x)) l.
Proof. induction l as [|x l IH]; [reflexivity|]. cbn. rewrite IH. reflexivity. Qed.

Lemma zip_with_repeat_r {B C D : Type} (h : B -> C -> D) (k : list B) (c : C) (n : nat) :
  length k = n -> zip_with h k (repeat c n) = map (fun x => h x c) k.
Proof.
  intros <-. induction k as [|x k IH]; [reflexivity|]. cbn. rewrite IH. reflexivity.
Qed.

Lemma zip_with_repeat_l {B C D : Type} (h : B -> C -> D) (c : B) (k : list C) (n : nat) :
  length k = n -> zip_with h (repeat c n) k = map (fun y => h c y) k.
Proof.
  intros <-. induction k as [|x k IH]; [reflexivity|]. cbn. rewrite IH. reflexivity.
Qed.

Lemma outer_length F l : length (outer F l) = length l.
Proof. unfold outer. apply length_map. Qed.

Lemma outer_rows F l : Forall (fun r => length r = length l) (outer F l).
Proof.
  unfold outer. apply Forall_map, Forall_true. intros x. cbn. apply length_map.
Qed.

Lemma stretch_outer F l :
  expand [] (length l) (map (expand 0 (length l)) (outer F l)) = outer F l.
Proof.
  rewrite map_expand_same by apply outer_rows.
  apply expand_same, outer_length.
Qed.

Lemma stretch_col g l :
  expand [] (length l) (map (expand 0 (length l)) (col g l))
  = map (fun x => repeat (g x) (length l)) l.
Proof.
  unfold col. rewrite map_map.
  rewrite (map_ext _ (fun x => repeat (g x) (length l))) by (intros x; apply expand_single).
  apply expand_same, length_map.
Qed.

Lemma stretch_vec g l :
  expand [] (length l) (map (expand 0 (length l)) [map g l])
  = repeat (map g l) (length l).
Proof.
  cbn [map]. rewrite (expand_same 0 (length l)) by apply length_map.
  apply expand_single.
Qed.

Lemma broadcast_outer_col f F g l :
  broadcast f (T2 (length l) (outer F l)) (T2 1 (col g l))
  = Ok (T2 (length l) (outer (fun x y => f (F x y) (g x)) l)).
Proof.
  unfold broadcast, as2.
  replace (length (col g l)) with (length l) by (unfold col; rewrite length_map; reflexivity).
  rewrite outer_length, bdim_same, bdim_one_r, stretch_outer, stretch_col.
  f_equal. f_equal. unfold outer. rewrite zip_with_map_same.
  apply map_ext. intros x. rewrite zip_with_repeat_r by apply length_map. apply map_map.
Qed.

Lemma broadcast_col_outer f F g l :
  broadcast f (T2 1 (col g l)) (T2 (length l) (outer F l))
  = Ok (T2 (length l) (outer (fun x y => f (g x) (F x y)) l)).
Proof.
  unfold broadcast, as2.
  replace (length (col g l)) with (length l) by (unfold col; rewrite length_map; reflexivity).
  rewrite outer_length, bdim_same, bdim_one_l, stretch_outer, stretch_col.
  f_equal. f_equal. unfold outer. rewrite zip_with_map_same.
  apply map_ext. intros x. rewrite zip_with_repeat_l by apply length_map. apply map_map.
Qed.

Lemma broadcast_outer_vec f F g l :
  broadcast f (T2 (length l) (outer F l)) (T1 (map g l))
  = Ok (T2 (length l) (outer (fun x y => f (F x y) (g y)) l)).
Proof.
  unfold broadcast, as2. cbn [length].
  rewrite length_map, outer_length, bdim_one_r, bdim_same, stretch_outer, stretch_vec.
  f_equal. f_equal. rewrite zip_with_repeat_r by apply outer_length.
  unfold outer. rewrite map_map. apply map_ext. intros x.
  apply zip_with_map_same.
Qed.

Lemma broadcast_vec_outer f F g l :
  broadcast f (T1 (map g l)) (T2 (length l) (outer F l))
  = Ok (T2 (length l) (outer (fun x y => f (g y) (F x y)) l)).
Proof.
  unfold broadcast, as2. cbn [length].
  rewrite length_map, outer_length, bdim_one_l, bdim_same, stretch_outer, stretch_vec.
  f_equal. f_equal. rewrite zip_with_repeat_l by apply outer_length.
  unfold outer. rewrite map_map. apply map_ext. intros x.
  apply zip_with_map_same.
Qed.

Lemma broadcast_vec_col f (d g : A -> R) l :
  broadcast f (T1 (map d l)) (T2 1 (col g l))
  = Ok (T2 (length l) (outer (fun x y => f (d y) (g x)) l)).
Proof.
  unfold broadcast, as2. cbn [length].
  replace (length (col g l)) with (length l) by (unfold col; rewrite length_map; reflexivity).
  rewrite length_map, bdim_one_l, bdim_one_r, stretch_col, stretch_vec.
  f_equal. f_equal. unfold outer.
  rewrite zip_with_repeat_l by apply length_map.
  rewrite map_map. apply map_ext. intros x.
  rewrite zip_with_repeat_r by apply length_map.
  rewrite map_map. reflexivity.
Qed.

Lemma tmap_outer (h : R -> R) F l :
  tmap h (T2 (length l) (outer F l)) = T2 (length l) (outer (fun x y => h (F x y)) l).
Proof.
  cbn. f_equal. unfold outer. rewrite map_map. apply map_ext. intros x.
  apply map_map.
Qed.

Lemma Rsum_app (u v : list R) : Rsum (u ++ v) = Rsum u + Rsum v.
Proof.
  induction u as [|x u IH].
  - change (Rsum ([] ++ v)) with (Rsum v). change (Rsum []) with 0. lra.
  - change (Rsum ((x :: u) ++ v)) with (x + Rsum (u ++ v)).
    change (Rsum (x :: u)) with (x + Rsum u). rewrite IH. lra.
Qed.

Lemma Rsum_concat (a : list (list R)) : Rsum (concat a) = Rsum (map Rsum a).
Proof.
  induction a as [|r a IH]; [reflexivity|]. cbn [concat map]. rewrite Rsum_app, IH. reflexivity.
Qed.

Lemma mean_outer F l :
  mean (T2 (length l) (outer F l))
  = Rsum (map (fun x => Rsum (map (fun y => F x y) l)) l) / INR (length l * length l).
Proof.
  unfold mean. cbn [entries numel]. rewrite outer_length, Rsum_concat.
  unfold outer. rewrite map_map. reflexivity.
Qed.

End Outer.

Lemma broadcast_matrices (f : R -> R -> R) (m : nat) (a b : list (list R)) :
  Forall (fun r => length r = m) a -> Forall (fun r => length r = m) b ->
  length a = length b ->
  broadcast f (T2 m a) (T2 m b) = Ok (T2 m (zip_with (zip_with f) a b)).
Proof.
  intros Wa Wb Hl. unfold broadcast, as2. rewrite Hl, !bdim_same.
  rewrite !map_expand_same by assumption.
  rewrite !expand_same by (assumption || reflexivity). reflexivity.
Qed.

(** The vector of dot products the training step computes first. *)
Lemma dots_of_batch (dim : nat) (batch : list sample) :
  well_sized dim batch ->
  (prod ← tmul (embeds_of dim word_embed batch) (embeds_of dim context_embed batch);
   sum_dim1 prod) = Ok (T1 (map dot_of batch)).
Proof.
  intros Hw. unfold tmul, embeds_of. rewrite broadcast_matrices.
  - cbn [mbind result_bind sum_dim1]. rewrite zip_with_map_same, map_map. reflexivity.
  - apply Forall_map. eapply Forall_impl; [exact Hw|]. intros s [E _]. exact E.
  - apply Forall_map. eapply Forall_impl; [exact Hw|]. intros s [_ E]. exact E.
  - rewrite !length_map. reflexivity.
Qed.

Lemma weights_vector (batch : list sample) :
  clamp_max (tmap (fun x => Rpower x alpha) (tmap (fun c => c / m_max) (vector_of count batch))) 1
  = T1 (map sample_weight batch).
Proof. unfold clamp_max, vector_of. cbn [tmap]. rewrite !map_map. reflexivity. Qed.

Lemma weights_column (batch : list sample) :
  clamp_max (tmap (fun x => Rpower x alpha) (tmap (fun c => c / m_max) (T2 1 (col count batch)))) 1
  = T2 1 (col sample_weight batch).
Proof.
  unfold clamp_max, col. cbn [tmap]. rewrite !map_map. reflexivity.
Qed.

Lemma log_counts_column (batch : list sample) :
  tmap ln (T2 1 (col count batch)) = T2 1 (col (fun s => ln (count s)) batch).
Proof. unfold col. cbn [tmap]. rewrite map_map. reflexivity. Qed.

(** The training step on any mini-batch, as a sum over pairs of samples. *)
Lemma step_loss_outer (dim : nat) (batch : list sample) :
  well_sized dim batch ->
  step_loss dim vector_of batch
  = Ok (Rsum (map (fun si => Rsum (map (fun sj => cross_term si sj sj) batch)) batch)
        / INR (length batch * length batch)) /\
  step_loss dim column_of batch
  = Ok (Rsum (map (fun si => Rsum (map (fun sj => cross_term si sj si) batch)) batch)
        / INR (length batch * length batch)).
Proof.
  intros Hw. pose proof (dots_of_batch dim batch Hw) as Hd.
  unfold step_loss, wavg_loss.
  destruct (tmul (embeds_of dim word_embed batch) (embeds_of dim context_embed batch))
    as [prod|e]; [|discriminate Hd].
  cbn [mbind result_bind] in Hd |- *. rewrite Hd. cbn [mbind result_bind].
  unfold tadd, tsub, tmul, column_of.
  change (map (fun s => [word_bias s]) batch) with (col word_bias batch).
  change (map (fun s => [context_bias s]) batch) with (col context_bias batch).
  change (map (fun s => [count s]) batch) with (col count batch).
  rewrite broadcast_vec_col. cbn [mbind result_bind].
  rewrite broadcast_outer_col. cbn [mbind result_bind].
  split.
  - rewrite weights_vector. unfold vector_of. cbn [tmap]. rewrite map_map.
    rewrite (broadcast_outer_vec Rminus _ (fun s => ln (count s))).
    cbn [mbind result_bind]. rewrite tmap_outer.
    rewrite (broadcast_vec_outer Rmult _ sample_weight). cbn [mbind result_bind].
    rewrite mean_outer. reflexivity.
  - rewrite weights_column, log_counts_column.
    rewrite (broadcast_outer_col Rminus _ (fun s => ln (count s))).
    cbn [mbind result_bind]. rewrite tmap_outer.
    rewrite (broadcast_col_outer Rmult _ sample_weight). cbn [mbind result_bind].
    rewrite mean_outer. reflexivity.
Qed.

(** X16: what the training step computes on any mini-batch.  The loss tensor is
    square: entry [(i, j)] takes the dot product of sample [j] and the biases
    of sample [i], and the count (in the logarithm and in the weight) of
    sample [j] when the counts are a vector, of sample [i] when they are a
    column; [wavg_loss] is the mean over all pairs. *)
Theorem step_loss_cross_terms (dim : nat) (batch : list sample) :
  well_sized dim batch ->
  step_loss dim vector_of batch
  = Ok (Rsum (map (fun si => Rsum (map (fun sj => cross_term si sj sj) batch)) batch)
        / INR (length batch * length batch)) /\
  step_loss dim column_of batch
  = Ok (Rsum (map (fun si => Rsum (map (fun sj => cross_term si sj si) batch)) batch)
        / INR (length batch * length batch)).
Proof. exact (step_loss_outer dim batch). Qed.

(** X17: on a mini-batch of one sample the training step computes the weighted
    least-squares objective. *)
Theorem step_loss_single (dim : nat) (s : sample) :
  length (word_embed s) = dim ->
  length (context_embed s) = dim ->
  step_loss dim vector_of [s] = Ok (glove_objective [s]) /\
  step_loss dim column_of [s] = Ok (glove_objective [s]).
Proof.
  intros Hw Hc.
  destruct (step_loss_outer dim [s]) as [Ev Ec].
  { constructor; [split; assumption | constructor]. }
  rewrite Ev, Ec. unfold glove_objective, cross_term, sample_loss.
  cbn [map length Rsum fold_right Nat.mul Nat.add].
  split; f_equal; f_equal; lra.
Qed.








Lemma toy_batch_well_sized : well_sized 1 [sample_a; sample_b].
Proof. repeat constructor. Qed.

Lemma step_loss_cross_terms_witness :
  step_loss 1 vector_of [sample_a; sample_b]
  = Ok (Rsum (map (fun si => Rsum (map (fun sj => cross_term si sj sj) [sample_a; sample_b]))
                  [sample_a; sample_b]) / INR (2 * 2)) /\
  step_loss 1 column_of [sample_a; sample_b]
  = Ok (Rsum (map (fun si => Rsum (map (fun sj => cross_term si sj si) [sample_a; sample_b]))
                  [sample_a; sample_b]) / INR (2 * 2)).
Proof. exact (step_loss_cross_terms 1 [sample_a; sample_b] toy_batch_well_sized). Defined.

Lemma step_loss_single_witness :
  step_loss 1 vector_of [sample_a] = Ok (glove_objective [sample_a]) /\
  step_loss 1 column_of [sample_a] = Ok (glove_objective [sample_a]).
Proof. exact (step_loss_single 1 sample_a eq_refl eq_refl). Defined.



End GloveBatches.

(** ** More on the RNN cells *)

Module RnnEdges.

Import Torch Rnn TorchProps Examples RnnProps.
Local Open Scope R_scope.

(** A matrix and a matrix of one row as long as its rows: the row is combined
    with every row. *)
Lemma broadcast_one_row (f : R -> R -> R) (n m : nat) (X Y : tensor) :
  matrix n m X -> matrix 1 m Y ->
  exists Z, broadcast f X Y = Ok Z /\ matrix n m Z /\
    forall i j, (i < n)%nat -> (j < m)%nat -> get2 Z i j = f (get2 X i j) (get2 Y O j).
Proof.
  intros (a & -> & Ha & Wa) (b & -> & Hb & Wb).
  destruct b as [|v [|? ?]]; try discriminate.
  assert (Hv : length v = m) by (inversion Wb; assumption).
  exists (T2 m (zip_with (zip_with f) a (repeat v n))). split; [|split].
  - unfold broadcast, as2. cbn [length]. rewrite Ha, bdim_one_r, bdim_same.
    rewrite map_expand_same by assumption.
    rewrite expand_same by assumption.
    cbn [map]. rewrite (expand_same 0 m v Hv), expand_single. reflexivity.
  - exists (zip_with (zip_with f) a (repeat v n)). split; [reflexivity|]. split.
    + rewrite length_zip_with, repeat_length. lia.
    + apply Forall_zip_with_repeat; assumption.
  - intros i j Hi Hj. cbn.
    rewrite (nth_row_zip_with (zip_with f) a (repeat v n) []) by (rewrite ?repeat_length; lia).
    rewrite nth_repeat_lt by exact Hi.
    apply nth_zip_with; [rewrite (Forall_nth_length m) by (assumption || lia)|rewrite Hv]; exact Hj.
Qed.


Lemma get2_new_zeros (n m i j : nat) : get2 (new_zeros n m) i j = 0.
Proof.
  unfold new_zeros, get2.
  destruct (Nat.lt_ge_cases i n) as [Hi | Hi].
  - rewrite nth_repeat_lt by exact Hi.
    destruct (Nat.lt_ge_cases j m) as [Hj | Hj].
    + apply nth_repeat_lt. exact Hj.
    + apply nth_overflow. rewrite repeat_length. exact Hj.
  - rewrite (nth_overflow (repeat (repeat 0 m) n)) by (rewrite repeat_length; exact Hi).
    destruct j; reflexivity.
Qed.

Lemma matrix_new_zeros (n m : nat) : matrix n m (new_zeros n m).
Proof.
  exists (repeat (repeat 0 m) n). split; [reflexivity|]. split.
  - apply repeat_length.
  - apply List.Forall_forall. intros r Hr. apply repeat_spec in Hr.
    subst r. apply repeat_length.
Qed.

Lemma sum_upto_zero (n : nat) (f : nat -> R) :
  (forall k, (k < n)%nat -> f k = 0) -> sum_upto n f = 0.
Proof.
  induction n as [|n IH]; intros Hf; [reflexivity|].
  cbn. rewrite IH, Hf by (intros; try apply Hf; lia). lra.
Qed.

Section Naive.

Import NaiveCustomRNN.

(** [forward] on a hidden state that has one row per sample. *)
Lemma naive_forward_entries (self : NaiveCustomRNN.t) (batch : nat) (X H : tensor) :
  shaped self ->
  matrix batch (input_size self) X ->
  matrix batch (hidden_size self) H ->
  exists Out H',
    forward self X (Some H) = Ok (Out, H') /\
    matrix batch (hidden_size self) H' /\
    matrix batch (hidden_size self) Out /\
    forall i j, (i < batch)%nat -> (j < hidden_size self)%nat ->
      get2 H' i j
      = elman_hidden (input_size self) (hidden_size self) X H
          (W_xh self) (W_hh self) (b_h self) i j /\
      get2 Out i j = elman_output (hidden_size self) H' (W_hq self) (b_q self) i j.
Proof.
  intros (Hxh & Hhh & (bh & Ebh & Lbh) & Hhq & (bq & Ebq & Lbq)) HX HH.
  destruct (mm_spec _ _ _ _ _ HX Hxh) as (xw & Exw & Mxw & Gxw).
  destruct (mm_spec _ _ _ _ _ HH Hhh) as (hw & Ehw & Mhw & Ghw).
  destruct (broadcast_same_shape Rplus _ _ _ _ Mxw Mhw) as (s & Es & Ms & Gs).
  destruct (broadcast_rows Rplus _ _ _ bh Ms Lbh) as (hy & Ehy & Mhy & Ghy).
  destruct (tmap_matrix tanh _ _ _ Mhy) as (Mt & Gt).
  destruct (mm_spec _ _ _ _ _ Mt Hhq) as (o & Eo & Mo & Go).
  destruct (broadcast_rows Rplus _ _ _ bq Mo Lbq) as (out & Eout & Mout & Gout).
  exists out, (tmap tanh hy). split; [|split; [exact Mt|split; [exact Mout|]]].
  - unfold forward, default_hx, tadd. cbn [mbind result_bind mret result_ret].
    rewrite Exw. cbn [mbind result_bind]. rewrite Ehw. cbn [mbind result_bind].
    rewrite Es. cbn [mbind result_bind]. rewrite Ebh, Ehy. cbn [mbind result_bind].
    rewrite Eo. cbn [mbind result_bind]. rewrite Ebq, Eout. reflexivity.
  - intros i j Hi Hj. split.
    + rewrite Gt, Ghy, Gs, Gxw, Ghw by assumption.
      unfold elman_hidden. rewrite Ebh. reflexivity.
    + rewrite Gout, Go by assumption.
      unfold elman_output. rewrite Ebq. reflexivity.
Qed.

(** X8: without a hidden state the recurrent term vanishes:
    [H' = tanh (X W_xh + b_h)]. *)
Theorem naive_forward_no_hidden (self : NaiveCustomRNN.t) (batch : nat) (X : tensor) :
  shaped self ->
  matrix batch (input_size self) X ->
  exists Out H',
    forward self X None = Ok (Out, H') /\
    matrix batch (hidden_size self) H' /\
    matrix batch (hidden_size self) Out /\
    forall i j, (i < batch)%nat -> (j < hidden_size self)%nat ->
      get2 H' i j
      = tanh (sum_upto (input_size self) (fun k => get2 X i k * get2 (W_xh self) k j)
              + get1 (b_h self) j) /\
      get2 Out i j = elman_output (hidden_size self) H' (W_hq self) (b_q self) i j.
Proof.
  intros Hs HX.
  destruct (naive_forward_entries self batch X (new_zeros batch (hidden_size self)) Hs HX
              (matrix_new_zeros _ _)) as (Out & H' & Hf & MH & MOut & Hent).
  exists Out, H'. split; [|split; [exact MH|split; [exact MOut|]]].
  - destruct HX as (x & -> & Hx & _). rewrite <- Hf. cbn. rewrite Hx. reflexivity.
  - intros i j Hi Hj. destruct (Hent i j Hi Hj) as [Eh Eo]. split; [|exact Eo].
    rewrite Eh. unfold elman_hidden. f_equal. f_equal.
    rewrite (sum_upto_zero (hidden_size self)); [lra|].
    intros k _. rewrite get2_new_zeros. lra.
Qed.


(** X10: sample [i] of the result depends on sample [i] of the input and of the
    hidden state only. *)
Theorem naive_forward_rows_independent (self : NaiveCustomRNN.t) (batch : nat)
    (X1 H1 X2 H2 : tensor) (i : nat) :
  shaped self ->
  matrix batch (input_size self) X1 -> matrix batch (hidden_size self) H1 ->
  matrix batch (input_size self) X2 -> matrix batch (hidden_size self) H2 ->
  (i < batch)%nat ->
  (forall k, (k < input_size self)%nat -> get2 X1 i k = get2 X2 i k) ->
  (forall k, (k < hidden_size self)%nat -> get2 H1 i k = get2 H2 i k) ->
  exists O1 H1' O2 H2',
    forward self X1 (Some H1) = Ok (O1, H1') /\
    forward self X2 (Some H2) = Ok (O2, H2') /\
    forall j, (j < hidden_size self)%nat ->
      get2 H1' i j = get2 H2' i j /\ get2 O1 i j = get2 O2 i j.
Proof.
  intros Hs HX1 HH1 HX2 HH2 Hi EX EH.
  destruct (naive_forward_entries self batch X1 H1 Hs HX1 HH1) as (O1 & H1' & Hf1 & _ & _ & Hent1).
  destruct (naive_forward_entries self batch X2 H2 Hs HX2 HH2) as (O2 & H2' & Hf2 & _ & _ & Hent2).
  exists O1, H1', O2, H2'. split; [exact Hf1|]. split; [exact Hf2|].
  assert (Hh : forall j, (j < hidden_size self)%nat -> get2 H1' i j = get2 H2' i j).
  { intros j Hj. destruct (Hent1 i j Hi Hj) as [-> _]. destruct (Hent2 i j Hi Hj) as [-> _].
    unfold elman_hidden. f_equal. f_equal. f_equal.
    - apply sum_upto_ext. intros k Hk. rewrite EX by exact Hk. reflexivity.
    - apply sum_upto_ext. intros k Hk. rewrite EH by exact Hk. reflexivity. }
  intros j Hj. split; [exact (Hh j Hj)|].
  destruct (Hent1 i j Hi Hj) as [_ ->]. destruct (Hent2 i j Hi Hj) as [_ ->].
  unfold elman_output. f_equal.
  apply sum_upto_ext. intros k Hk. rewrite Hh by exact Hk. reflexivity.
Qed.

(** X11: a hidden state of one row is accepted for any batch size: its row is
    used for every sample. *)
Theorem naive_forward_broadcasts_hidden (self : NaiveCustomRNN.t) (batch : nat) (X H : tensor) :
  shaped self ->
  matrix batch (input_size self) X ->
  matrix 1 (hidden_size self) H ->
  exists Out H',
    forward self X (Some H) = Ok (Out, H') /\
    matrix batch (hidden_size self) H' /\
    matrix batch (hidden_size self) Out /\
    forall i j, (i < batch)%nat -> (j < hidden_size self)%nat ->
      get2 H' i j
      = tanh (sum_upto (input_size self) (fun k => get2 X i k * get2 (W_xh self) k j)
              + sum_upto (hidden_size self) (fun k => get2 H 0%nat k * get2 (W_hh self) k j)
              + get1 (b_h self) j).
Proof.
  intros (Hxh & Hhh & (bh & Ebh & Lbh) & Hhq & (bq & Ebq & Lbq)) HX HH.
  destruct (mm_spec _ _ _ _ _ HX Hxh) as (xw & Exw & Mxw & Gxw).
  destruct (mm_spec _ _ _ _ _ HH Hhh) as (hw & Ehw & Mhw & Ghw).
  destruct (broadcast_one_row Rplus _ _ _ _ Mxw Mhw) as (s & Es & Ms & Gs).
  destruct (broadcast_rows Rplus _ _ _ bh Ms Lbh) as (hy & Ehy & Mhy & Ghy).
  destruct (tmap_matrix tanh _ _ _ Mhy) as (Mt & Gt).
  destruct (mm_spec _ _ _ _ _ Mt Hhq) as (o & Eo & Mo & Go).
  destruct (broadcast_rows Rplus _ _ _ bq Mo Lbq) as (out & Eout & Mout & Gout).
  exists out, (tmap tanh hy). split; [|split; [exact Mt|split; [exact Mout|]]].
  - unfold forward, default_hx, tadd. cbn [mbind result_bind mret result_ret].
    rewrite Exw. cbn [mbind result_bind]. rewrite Ehw. cbn [mbind result_bind].
    rewrite Es. cbn [mbind result_bind]. rewrite Ebh, Ehy. cbn [mbind result_bind].
    rewrite Eo. cbn [mbind result_bind]. rewrite Ebq, Eout. reflexivity.
  - intros i j Hi Hj.
    rewrite Gt, Ghy, Gs, Gxw, Ghw by (assumption || lia).
    rewrite Ebh. reflexivity.
Qed.

(** X12: an input whose feature count is not [input_size] makes [torch.mm]
    raise, whatever the hidden state. *)
Theorem naive_forward_wrong_features (self : NaiveCustomRNN.t) (features : nat)
    (x : list (list R)) (hx : option tensor) :
  shaped self ->
  features <> input_size self ->
  exists msg, forward self (T2 features x) hx = Raise (RuntimeError msg).
Proof.
  intros ((a & Ea & La & _) & _) Hne.
  eexists. unfold forward.
  assert (Hd : exists h, default_hx (T2 features x) (hidden_size self) hx = Ok h).
  { destruct hx; eexists; reflexivity. }
  destruct Hd as [h ->]. cbn [mbind result_bind].
  rewrite Ea. unfold mm. rewrite La.
  destruct (Nat.eqb_spec features (input_size self)); [contradiction|]. reflexivity.
Qed.

End Naive.

Section CellErrors.

Import RNNCell.
Context `{Function}.

Local Open Scope string_scope.

(** X13: the checks run in a fixed order and the first one that fails decides
    the error: the feature count of the input, then the batch size of the
    hidden state, then its feature count; each message reports the size found
    and the size expected. *)
Theorem forward_error_precedence (self : RNNCell.t) (features : nat) (x : list (list R))
    (hfeatures : nat) (h : list (list R)) :
  (features <> input_size self ->
   forward self (T2 features x) (Some (T2 hfeatures h))
   = Raise (RuntimeError (input_size_msg features (input_size self)))) /\
  (features = input_size self -> length x <> length h ->
   forward self (T2 features x) (Some (T2 hfeatures h))
   = Raise (RuntimeError (batch_size_msg "" (length x) (length h)))) /\
  (features = input_size self -> length x = length h -> hfeatures <> hidden_size self ->
   forward self (T2 features x) (Some (T2 hfeatures h))
   = Raise (RuntimeError (hidden_size_msg "" hfeatures (hidden_size self)))).
Proof.
  unfold forward, check_forward_input, default_hx, check_forward_hidden.
  cbn [size shape lookup list_lookup mbind result_bind mret result_ret].
  split; [|split].
  - intros Hf. destruct (Nat.eqb_spec features (input_size self)); [contradiction|].
    reflexivity.
  - intros Hf Hb. rewrite Hf, Nat.eqb_refl. cbn [negb mbind result_bind mret result_ret].
    destruct (Nat.eqb_spec (length x) (length h)); [contradiction|]. reflexivity.
  - intros Hf Hb Hh. rewrite Hf, Nat.eqb_refl. cbn [negb mbind result_bind mret result_ret].
    rewrite Hb, Nat.eqb_refl. cbn [negb mbind result_bind mret result_ret].
    destruct (Nat.eqb_spec hfeatures (hidden_size self)); [contradiction|]. reflexivity.
Qed.

(** X14: without a hidden state the checks of the hidden state cannot fail:
    on a two-dimensional input [forward] raises the error of a shape check
    exactly when the feature count differs from [input_size]. *)
Theorem forward_no_hidden_shape_error (self : RNNCell.t) (features : nat)
    (x : list (list R)) :
  raises_shape_error (forward self (T2 features x) None) <-> features <> input_size self.
Proof.
  unfold forward, check_forward_input, default_hx, check_forward_hidden.
  cbn [size shape lookup list_lookup mbind result_bind mret result_ret new_zeros].
  destruct (Nat.eqb_spec features (input_size self)) as [Em | Em];
    cbn [negb mbind result_bind mret result_ret].
  2: { split; [intros _; exact Em | intros _]. left. eexists _, _. reflexivity. }
  rewrite repeat_length, !Nat.eqb_refl. cbn [negb mbind result_bind mret result_ret].
  split; [|intros E; contradiction].
  destruct (String.eqb (nonlinearity self) "tanh"); [intros []|].
  destruct (String.eqb (nonlinearity self) "relu"); [intros []|].
  intros He. destruct (unknown_not_shape_error _ He).
Qed.

(** X15: a one-dimensional input fails at [input.size(1)] with an
    [IndexError]; a one-dimensional hidden state fails at [hx.size(1)] with an
    [IndexError] when it is as long as the batch, and with the batch-size
    error otherwise. *)
Theorem forward_rank_errors (self : RNNCell.t) :
  (forall (v : list R) (hx : option tensor),
     exists msg, forward self (T1 v) hx = Raise (IndexError msg)) /\
  (forall (x : list (list R)) (v : list R),
     length v = length x ->
     exists msg,
       forward self (T2 (input_size self) x) (Some (T1 v)) = Raise (IndexError msg)) /\
  (forall (x : list (list R)) (v : list R),
     length v <> length x ->
     forward self (T2 (input_size self) x) (Some (T1 v))
     = Raise (RuntimeError (batch_size_msg "" (length x) (length v)))).
Proof.
  unfold forward, check_forward_input, default_hx, check_forward_hidden.
  split; [|split].
  - intros v hx. eexists. reflexivity.
  - intros x v Hl.
    cbn [size shape lookup list_lookup mbind result_bind mret result_ret].
    rewrite Nat.eqb_refl. cbn [negb mbind result_bind mret result_ret].
    rewrite Hl, Nat.eqb_refl. cbn [negb mbind result_bind mret result_ret].
    eexists. reflexivity.
  - intros x v Hl.
    cbn [size shape lookup list_lookup mbind result_bind mret result_ret].
    rewrite Nat.eqb_refl. cbn [negb mbind result_bind mret result_ret].
    destruct (Nat.eqb_spec (length x) (length v)); [congruence|]. reflexivity.
Qed.

End CellErrors.

Lemma toy_rnn_shaped : NaiveCustomRNN.shaped toy_rnn.
Proof. repeat split; try concrete_matrix; eexists; split; reflexivity. Qed.

Lemma naive_forward_no_hidden_witness :
  exists Out H',
    NaiveCustomRNN.forward toy_rnn (T2 2 [[1; 1]]) None = Ok (Out, H') /\
    matrix 1 1 H' /\ matrix 1 1 Out /\
    forall i j, (i < 1)%nat -> (j < 1)%nat ->
      get2 H' i j
      = tanh (sum_upto 2 (fun k => get2 (T2 2 [[1; 1]]) i k * get2 (T2 1 [[1]; [2]]) k j)
              + get1 (T1 [4]) j) /\
      get2 Out i j = elman_output 1 H' (T2 1 [[5]]) (T1 [6]) i j.
Proof.
  apply (naive_forward_no_hidden toy_rnn 1 (T2 2 [[1; 1]]) toy_rnn_shaped).
  concrete_matrix.
Defined.


Lemma naive_forward_rows_independent_witness :
  exists O1 H1' O2 H2',
    NaiveCustomRNN.forward toy_rnn (T2 2 [[1; 1]; [2; 2]]) (Some (T2 1 [[0]; [7]]))
    = Ok (O1, H1') /\
    NaiveCustomRNN.forward toy_rnn (T2 2 [[1; 1]; [3; 3]]) (Some (T2 1 [[0]; [8]]))
    = Ok (O2, H2') /\
    forall j, (j < 1)%nat -> get2 H1' 0 j = get2 H2' 0 j /\ get2 O1 0 j = get2 O2 0 j.
Proof.
  apply (naive_forward_rows_independent toy_rnn 2
           (T2 2 [[1; 1]; [2; 2]]) (T2 1 [[0]; [7]])
           (T2 2 [[1; 1]; [3; 3]]) (T2 1 [[0]; [8]]) 0 toy_rnn_shaped);
    try concrete_matrix.
  - lia.
  - intros k Hk. reflexivity.
  - intros k Hk. reflexivity.
Defined.

Lemma naive_forward_broadcasts_hidden_witness :
  exists Out H',
    NaiveCustomRNN.forward toy_rnn (T2 2 [[1; 1]; [2; 2]]) (Some (T2 1 [[7]])) = Ok (Out, H') /\
    matrix 2 1 H' /\ matrix 2 1 Out /\
    forall i j, (i < 2)%nat -> (j < 1)%nat ->
      get2 H' i j
      = tanh (sum_upto 2 (fun k => get2 (T2 2 [[1; 1]; [2; 2]]) i k * get2 (T2 1 [[1]; [2]]) k j)
              + sum_upto 1 (fun k => get2 (T2 1 [[7]]) 0 k * get2 (T2 1 [[3]]) k j)
              + get1 (T1 [4]) j).
Proof.
  apply (naive_forward_broadcasts_hidden toy_rnn 2 (T2 2 [[1; 1]; [2; 2]]) (T2 1 [[7]])
           toy_rnn_shaped);
    concrete_matrix.
Defined.

Lemma naive_forward_wrong_features_witness :
  exists msg,
    NaiveCustomRNN.forward toy_rnn (T2 3 [[1; 1; 1]]) None = Raise (RuntimeError msg).
Proof.
  apply (naive_forward_wrong_features toy_rnn 3 [[1; 1; 1]] None toy_rnn_shaped).
  cbn. lia.
Defined.

Lemma forward_error_precedence_witness :
  RNNCell.forward (H := toy_function) (toy_cell "sigmoid") (T2 2 [[1; 2]])
    (Some (T2 5 [[0; 0; 0; 0; 0]; [0; 0; 0; 0; 0]]))
  = Raise (RuntimeError (RNNCell.input_size_msg 2 3)).
Proof.
  apply (proj1 (forward_error_precedence (H := toy_function) (toy_cell "sigmoid") 2
                  [[1; 2]] 5 [[0; 0; 0; 0; 0]; [0; 0; 0; 0; 0]])).
  cbn. lia.
Defined.

Lemma forward_rank_errors_witness :
  exists msg,
    RNNCell.forward (H := toy_function) (toy_cell "tanh") (T2 3 [[1; 2; 3]]) (Some (T1 [0]))
    = Raise (IndexError msg).
Proof.
  apply (proj1 (proj2 (forward_rank_errors (H := toy_function) (toy_cell "tanh")))
           [[1; 2; 3]] [0]).
  reflexivity.
Defined.

End RnnEdges.

(** ** The text printed for a cell *)

Module ReprProps.

Import Rnn Rnn.RNNCellBase Rnn.RNNCell Examples.
Local Open Scope string_scope.

Lemma append_inj_l (s a b : string) : s ++ a = s ++ b -> a = b.
Proof.
  induction s as [|c s IH]; cbn; [auto|]. intros E. injection E as E. auto.
Qed.

Lemma append_assoc' (a b c : string) : (a ++ b) ++ c = a ++ (b ++ c).
Proof. induction a as [|x a IH]; simpl; [reflexivity|]. f_equal. exact IH. Qed.

Lemma append_empty_r (a : string) : a ++ "" = a.
Proof. induction a as [|x a IH]; cbn; [reflexivity|]. f_equal. exact IH. Qed.

Lemma extra_repr_cell (self : RNNCell.t) :
  extra_repr (cell_dict self) = Formatted (sizes self ++ suffix self).
Proof.
  unfold extra_repr, sizes, suffix.
  change (cell_dict self "bias") with (Some (VBool (bias self))).
  change (cell_dict self "nonlinearity") with (Some (VStr (nonlinearity self))).
  destruct (bias self) eqn:Eb; destruct (String.eqb (nonlinearity self) "tanh") eqn:En;
    cbn [format app];
    change (cell_dict self "input_size") with (Some (VInt (input_size self)));
    change (cell_dict self "hidden_size") with (Some (VInt (hidden_size self)));
    try change (cell_dict self "bias") with (Some (VBool (bias self)));
    try change (cell_dict self "nonlinearity") with (Some (VStr (nonlinearity self)));
    rewrite ?Eb; cbn [str]; rewrite ?append_assoc', ?append_empty_r; cbn [append]; reflexivity.
Qed.

Lemma suffix_inj (self self' : RNNCell.t) :
  suffix self = suffix self' ->
  bias self = bias self' /\ nonlinearity self = nonlinearity self'.
Proof.
  unfold suffix.
  destruct (bias self), (bias self');
    destruct (String.eqb_spec (nonlinearity self) "tanh") as [-> | N];
    destruct (String.eqb_spec (nonlinearity self') "tanh") as [-> | N'];
    cbn [append]; intros E; try discriminate E; try (split; reflexivity).
  - injection E as E. split; [reflexivity | exact E].
  - injection E as E. split; [reflexivity | exact E].
Qed.

(** X20: for cells of the same sizes the text [extra_repr] prints tells apart
    every setting of [bias] and [nonlinearity]. *)
Theorem extra_repr_tells_config (self self' : RNNCell.t) :
  input_size self = input_size self' ->
  hidden_size self = hidden_size self' ->
  extra_repr (cell_dict self) = extra_repr (cell_dict self') ->
  bias self = bias self' /\ nonlinearity self = nonlinearity self'.
Proof.
  intros Hi Hh E. rewrite !extra_repr_cell in E. injection E as E.
  unfold sizes in E. rewrite Hi, Hh in E.
  apply suffix_inj. eapply append_inj_l. exact E.
Qed.

(** X21: [extra_repr] returns a text exactly when the dictionary holds both
    sizes: the optional fields are only formatted when their key is there, so
    the only keys that can be missing are ['input_size'] and
    ['hidden_size']. *)
Theorem extra_repr_keys (d : dict) :
  (exists s, extra_repr d = Formatted s) <->
  is_Some (d "input_size") /\ is_Some (d "hidden_size").
Proof.
  unfold extra_repr.
  destruct (d "bias") as [[n | [|] | s] |] eqn:Eb;
    destruct (d "nonlinearity") as [[n' | b' | s'] |] eqn:En;
    try destruct (String.eqb s' "tanh");
    cbn [format app]; rewrite ?Eb, ?En;
    destruct (d "input_size") as [vi|]; destruct (d "hidden_size") as [vh|];
    (split; [intros [r Hr]; try discriminate Hr; split; eauto
            | intros [[? Hi] [? Hh]]; try discriminate Hi; try discriminate Hh;
              eexists; reflexivity]).
Qed.

Lemma extra_repr_tells_config_witness :
  bias (toy_cell "relu") = bias (toy_cell "relu") /\
  nonlinearity (toy_cell "relu") = nonlinearity (toy_cell "relu").
Proof.
  exact (extra_repr_tells_config (toy_cell "relu") (toy_cell "relu") eq_refl eq_refl eq_refl).
Defined.

Example extra_repr_toy_cell :
  extra_repr (cell_dict (toy_cell "relu")) = Formatted "3, 2, bias=False, nonlinearity=relu".
Proof. reflexivity. Qed.

End ReprProps.

(** ** More on the seq2seq driver *)

Module Seq2SeqRuns.

Import Seq2Seq Examples Seq2SeqProps.
Local Open Scope Q_scope.

Section Run.

Context {G FT : Type} `{Layers G FT}.

(** The loop writes the prediction of step [a + k] at position [a + k] of
    [outputs], leaves the other positions alone, and hands the hidden state a
    call returns to the next call. *)
Lemma loop_run_outputs (trg : tokens) (tfr : Q) (ctx : FT) (n : nat) :
  forall (a : nat) (s : locals FT) (w : world G FT),
    (a + n <= length (rows trg))%nat ->
    (a + n <= length (outputs s))%nat ->
    exists s' w' new,
      for_each (seq a n) (loop_body trg tfr ctx) s w = (Ok s', w') /\
      calls w' = calls w ++ new /\
      length new = n /\
      (forall k c, new !! k = Some c -> outputs s' !! (a + k)%nat = Some (c_prediction c)) /\
      (forall i, (i < a \/ a + n <= i)%nat -> outputs s' !! i = outputs s !! i) /\
      (forall c, new !! O = Some c -> c_hidden c = hidden s) /\
      (forall k c c', new !! k = Some c -> new !! S k = Some c' ->
         c_hidden c' = c_hidden_out c) /\
      last (hidden s :: map c_hidden_out new) = Some (hidden s') /\
      length (outputs s') = length (outputs s).
Proof.
  induction n as [|n IH]; intros a s w Hlen Hout.
  - exists s, w, []. cbn. rewrite app_nil_r.
    repeat split; auto; intros; discriminate.
  - destruct (loop_body_run trg tfr ctx a s w) as (p & h' & g & Hb).
    specialize (Hb w eq_refl). cbn zeta in Hb.
    destruct (next_input_some trg tfr a (py_rng w O) p) as [i Hi]; [lia|].
    rewrite Hi in Hb.
    set (c := {| c_input := input s; c_hidden := hidden s; c_context := ctx;
                 c_prediction := p; c_hidden_out := h' |}) in *.
    set (s1 := {| outputs := <[a := p]> (outputs s); hidden := h'; input := i |}) in *.
    destruct (IH (S a) s1 (after_step g c w)) as
      (s' & w' & new & Hrun & Hcalls & Hn & Hpred & Hframe & Hh0 & Hchain & Hlast & Hol);
      [lia | subst s1; cbn; rewrite length_insert; lia |].
    exists s', w', (c :: new).
    split.
    { cbn [seq for_each]. unfold mbind, M_bind. rewrite Hb. exact Hrun. }
    split. { rewrite Hcalls. cbn. rewrite <- app_assoc. reflexivity. }
    split. { cbn. lia. }
    split.
    { intros [|k] c0 Hk.
      - cbn in Hk. injection Hk as <-. rewrite Nat.add_0_r.
        rewrite Hframe by lia. subst s1. cbn.
        apply list_lookup_insert_eq. lia.
      - cbn in Hk. replace (a + S k)%nat with (S a + k)%nat by lia.
        exact (Hpred k c0 Hk). }
    split.
    { intros j Hj. rewrite Hframe by lia. subst s1. cbn.
      apply list_lookup_insert_ne. lia. }
    split. { intros c0 Hc0. cbn in Hc0. injection Hc0 as <-. reflexivity. }
    split.
    { intros [|k] c0 c1 Hk Hk1.
      - cbn in Hk. injection Hk as <-. cbn in Hk1. exact (Hh0 c1 Hk1).
      - cbn in Hk, Hk1. exact (Hchain k c0 c1 Hk Hk1). }
    split. { rewrite <- Hlast. reflexivity. }
    rewrite Hol. subst s1. cbn. apply length_insert.
Qed.


(** The run of [forward] from the first decoder call on, with what
    [loop_run_outputs] says about it. *)
Lemma forward_run_outputs (src trg : tokens) (tfr : Q) (w : world G FT) :
  (1 <= length (rows trg))%nat ->
  exists outs w' new,
    forward src trg tfr w = (Ok outs, w') /\
    calls w' = calls w ++ new /\
    length new = (length (rows trg) - 1)%nat /\
    length outs = length (rows trg) /\
    (forall k c, new !! k = Some c -> outs !! S k = Some (c_prediction c)) /\
    (forall k c c', new !! k = Some c -> new !! S k = Some c' ->
       c_hidden c' = c_hidden_out c).
Proof.
  intros Hlen. rewrite forward_unfold.
  destruct (forward_locals_unfold src trg tfr w) as (ctx & g & _ & Hf).
  rewrite (Hf w eq_refl).
  destruct (rows trg !! O) as [i0|] eqn:E0.
  2: { apply lookup_ge_None in E0. lia. }
  edestruct (loop_run_outputs trg tfr ctx (length (rows trg) - 1) 1) as
    (s' & w' & new & Hrun & Hcalls & Hn & Hpred & _ & _ & Hchain & _ & Hol);
    [lia | | rewrite Hrun].
  { cbn. unfold zeros. rewrite repeat_length. lia. }
  exists (outputs s'), w', new. cbn in Hol. unfold zeros in Hol. rewrite repeat_length in Hol.
  repeat split; try assumption; try (intros k c Hk; exact (Hpred k c Hk)).
Qed.


(** X2: every decoder call after the first starts from the hidden state the
    call before it returned. *)
Theorem forward_hidden_chain (src trg : tokens) (tfr : Q) (w : world G FT) :
  exists r w' new,
    forward src trg tfr w = (r, w') /\
    calls w' = calls w ++ new /\
    forall k c c', new !! k = Some c -> new !! S k = Some c' ->
      c_hidden c' = c_hidden_out c.
Proof.
  destruct (rows trg) as [|r0 rs] eqn:Er.
  - destruct (forward_calls src trg tfr w) as (r & w' & new & Hf & Hc & Hn & _).
    rewrite Er in Hn. cbn in Hn. destruct new; [|discriminate].
    exists r, w', []. repeat split; try assumption. intros; discriminate.
  - destruct (forward_run_outputs src trg tfr w) as
      (outs & w' & new & Hf & Hcalls & _ & _ & _ & Hchain).
    { rewrite Er. cbn. lia. }
    exists (Ok outs), w', new. auto.
Qed.

(** The encoder never raises and touches only the framework generator. *)
Lemma encoder_ok (src : tokens) (w : world G FT) :
  exists r w', encoder src w = (Ok r, w') /\ py_rng w' = py_rng w /\ calls w' = calls w.
Proof.
  destruct (encoder_frame src w) as (r & g & He).
  exists r, (set_torch_rng g w). split; [exact (He w eq_refl)|]. split; reflexivity.
Qed.





(** Two runs of the loop whose draws fall on the same side of the ratio at
    every step but the last: they differ at most in the input chosen after the
    last step, which nothing reads. *)
Lemma loop_last_draw (trg : tokens) (tfr : Q) (ctx : FT) (n : nat) :
  forall (a : nat) (s : locals FT) (w1 w2 : world G FT),
    (a + n <= length (rows trg))%nat ->
    torch_rng w1 = torch_rng w2 ->
    (forall k, (S k < n)%nat -> Qltb (py_rng w1 k) tfr = Qltb (py_rng w2 k) tfr) ->
    exists s1 s2 w1' w2' new,
      for_each (seq a n) (loop_body trg tfr ctx) s w1 = (Ok s1, w1') /\
      for_each (seq a n) (loop_body trg tfr ctx) s w2 = (Ok s2, w2') /\
      outputs s1 = outputs s2 /\
      hidden s1 = hidden s2 /\
      torch_rng w1' = torch_rng w2' /\
      calls w1' = calls w1 ++ new /\
      calls w2' = calls w2 ++ new.
Proof.
  induction n as [|n IH]; intros a s w1 w2 Hlen Hg Hd.
  - exists s, s, w1, w2, []. cbn. rewrite !app_nil_r. auto 10.
  - destruct (loop_body_run trg tfr ctx a s w1) as (p & h' & g & Hb).
    pose proof (Hb w1 eq_refl) as Hb1. pose proof (Hb w2 (eq_sym Hg)) as Hb2.
    cbn zeta in Hb1, Hb2.
    destruct (next_input_some trg tfr a (py_rng w1 O) p) as [i1 Hi1]; [lia|].
    destruct (next_input_some trg tfr a (py_rng w2 O) p) as [i2 Hi2]; [lia|].
    rewrite Hi1 in Hb1. rewrite Hi2 in Hb2.
    set (c := {| c_input := input s; c_hidden := hidden s; c_context := ctx;
                 c_prediction := p; c_hidden_out := h' |}) in *.
    cbn [seq for_each]. unfold mbind, M_bind. rewrite Hb1, Hb2.
    destruct n as [|n].
    + cbn [seq for_each]. eexists _, _, _, _, [c]. repeat split.
    + assert (Ei : i2 = i1).
      { unfold next_input in Hi1, Hi2. rewrite (Hd O) in Hi1 by lia. congruence. }
      subst i2.
      destruct (IH (S a) {| outputs := <[a := p]> (outputs s); hidden := h'; input := i1 |}
                  (after_step g c w1) (after_step g c w2)) as
        (s1 & s2 & w1' & w2' & new & H1 & H2 & Ho & Hh & Hg' & Hc1 & Hc2).
      { lia. }
      { reflexivity. }
      { intros k Hk. cbn. apply Hd. lia. }
      exists s1, s2, w1', w2', (c :: new).
      repeat split; try assumption.
      * rewrite Hc1. cbn. rewrite <- app_assoc. reflexivity.
      * rewrite Hc2. cbn. rewrite <- app_assoc. reflexivity.
Qed.

(** X6: the draw of the last step never reaches the result: two runs whose
    draws fall on the same side of the ratio at every step but the last make
    the same decoder calls and return the same tensor. *)
Theorem forward_last_draw_unused (src trg : tokens) (tfr : Q) (w1 w2 : world G FT) :
  torch_rng w1 = torch_rng w2 ->
  (forall k, (S (S k) < length (rows trg))%nat ->
     Qltb (py_rng w1 k) tfr = Qltb (py_rng w2 k) tfr) ->
  exists r w1' w2' new,
    forward src trg tfr w1 = (r, w1') /\
    forward src trg tfr w2 = (r, w2') /\
    calls w1' = calls w1 ++ new /\
    calls w2' = calls w2 ++ new.
Proof.
  intros Hg Hd.
  destruct (forward_locals_unfold src trg tfr w1) as (ctx & g & _ & Hf).
  rewrite !forward_unfold, (Hf w1 eq_refl), (Hf w2 (eq_sym Hg)).
  destruct (rows trg !! O) as [i0|] eqn:E0.
  - apply lookup_lt_Some in E0.
    edestruct (loop_last_draw trg tfr ctx (length (rows trg) - 1) 1) as
      (s1 & s2 & w1' & w2' & new & H1 & H2 & Ho & _ & _ & Hc1 & Hc2);
      [| | | rewrite H1, H2].
    + lia.
    + reflexivity.
    + intros k Hk. cbn. apply Hd. lia.
    + exists (Ok (outputs s1)), w1', w2', new. rewrite Ho. auto.
  - eexists _, _, _, []. cbn. rewrite !app_nil_r. repeat split.
Qed.

(** A step whose draw is not below the ratio does not read the target. *)
Lemma loop_body_free (trg trg' : tokens) (tfr : Q) (ctx : FT) (t : nat)
    (s : locals FT) (w : world G FT) :
  Qltb (py_rng w O) tfr = false ->
  loop_body trg tfr ctx t s w = loop_body trg' tfr ctx t s w.
Proof.
  intros Hfalse.
  destruct (decoder_frame (input s) (hidden s) ctx w) as [[p h'] [g Hd]].
  unfold loop_body, call_decoder, mbind, M_bind. rewrite (Hd w eq_refl).
  cbn. rewrite Hfalse. reflexivity.
Qed.

Lemma loop_body_py_rng (trg : tokens) (tfr : Q) (ctx : FT) (t : nat)
    (s : locals FT) (w : world G FT) :
  forall k, py_rng (snd (loop_body trg tfr ctx t s w)) k = py_rng w (S k).
Proof.
  intros k. destruct (loop_body_run trg tfr ctx t s w) as (p & h' & g & Hb).
  rewrite (Hb w eq_refl). cbn zeta.
  destruct (next_input trg tfr t (py_rng w O) p); reflexivity.
Qed.

Lemma for_each_free (trg trg' : tokens) (tfr : Q) (ctx : FT) (ts : list nat) :
  forall (s : locals FT) (w : world G FT),
    (forall k, Qltb (py_rng w k) tfr = false) ->
    for_each ts (loop_body trg tfr ctx) s w = for_each ts (loop_body trg' tfr ctx) s w.
Proof.
  induction ts as [|t ts IH]; intros s w Hfree; [reflexivity|].
  cbn [for_each]. unfold mbind, M_bind.
  rewrite (loop_body_free trg trg') by apply Hfree.
  pose proof (loop_body_py_rng trg' tfr ctx t s w) as Hrng.
  destruct (loop_body trg' tfr ctx t s w) as [[s1|e] w1]; [|reflexivity].
  apply IH. intros k. cbn in Hrng. rewrite Hrng. apply Hfree.
Qed.

(** X7: with a ratio of at most 0 the run reads the target only for its
    shape and its first row. *)
Theorem forward_free_running (src trg trg' : tokens) (tfr : Q) (w : world G FT) :
  tfr <= 0 ->
  unit_draws w ->
  length (rows trg) = length (rows trg') ->
  width trg = width trg' ->
  rows trg !! O = rows trg' !! O ->
  forward src trg tfr w = forward src trg' tfr w.
Proof.
  intros Ht Hu Hl Hw H0.
  destruct (encoder_ok src w) as ([o ctx] & w' & He & Hrng & _).
  unfold forward, forward_locals, mbind, M_bind. rewrite He.
  unfold index. rewrite <- H0, <- Hl, <- Hw.
  destruct (rows trg !! O) as [i0|]; [|reflexivity].
  cbn. rewrite (for_each_free trg trg'); [reflexivity|].
  intros k. rewrite Hrng. apply unit_draws_free; assumption.
Qed.

End Run.





Lemma forward_last_draw_unused_witness :
  exists r w1' w2' new,
    forward (H := toy_layers) toy_src toy_trg (1 # 2) (toy_world draws_a) = (r, w1') /\
    forward (H := toy_layers) toy_src toy_trg (1 # 2) (toy_world draws_c) = (r, w2') /\
    calls w1' = calls (toy_world draws_a) ++ new /\
    calls w2' = calls (toy_world draws_c) ++ new.
Proof.
  apply (forward_last_draw_unused (H := toy_layers) toy_src toy_trg (1 # 2)
           (toy_world draws_a) (toy_world draws_c) eq_refl).
  intros k Hk. cbn in Hk. replace k with O by lia. reflexivity.
Defined.

Lemma forward_free_running_witness :
  forward (H := toy_layers) toy_src toy_trg 0 (toy_world draws_a)
  = forward (H := toy_layers) toy_src toy_other_trg 0 (toy_world draws_a).
Proof.
  apply (forward_free_running (H := toy_layers) toy_src toy_trg toy_other_trg 0
           (toy_world draws_a)).
  - vm_compute. congruence.
  - exact draws_a_unit.
  - reflexivity.
  - reflexivity.
  - reflexivity.
Defined.

End Seq2SeqRuns.

(** ** The shapes in the seq2seq modules *)

Module ShapesProps.

Import Shapes.
Local Open Scope nat_scope.

Section Model.

Variables (src_vocab trg_vocab embed_dim hidden layers : nat) (p : Q).

Let model := RNNSeq2Seq_init src_vocab trg_vocab embed_dim hidden layers p.

Lemma encoder_shapes (src : nat * nat) :
  encoder_forward (encoder model) src
  = Ok ([fst src; snd src; hidden], [layers; snd src; hidden]).
Proof.
  unfold encoder_forward, gru_shape. cbn. rewrite Nat.eqb_refl. reflexivity.
Qed.

(** One decoder call with one layer: every concatenation fits. *)
Lemma decoder_one_layer (batch : nat) :
  layers = 1 ->
  decoder_forward (decoder model) [batch] [1; batch; hidden] [1; batch; hidden]
  = Ok ([batch; trg_vocab], [1; batch; hidden]).
Proof.
  intros ->. unfold decoder_forward, cat_shape, agree_except, gru_shape, linear_shape.
  replace (in_features (dec_fc_out (decoder model))) with (embed_dim + (hidden + (hidden + 0)))
    by (cbn; lia).
  repeat first [ rewrite bool_decide_eq_true_2 by reflexivity
               | rewrite Nat.eqb_refl
               | rewrite Nat.add_0_r
               | progress cbn -[Nat.mul Nat.add] ].
  reflexivity.
Qed.


Lemma loop_step_one_layer (batch : nat) (forced : bool) :
  layers = 1 ->
  loop_step model (0, batch) [1; batch; hidden] forced ([1; batch; hidden], [batch])
  = Ok ([1; batch; hidden], [batch]).
Proof.
  intros Hl. unfold loop_step. rewrite (decoder_one_layer batch Hl).
  cbn -[Nat.mul Nat.add]. rewrite !Nat.eqb_refl. cbn. destruct forced; reflexivity.
Qed.

Lemma loop_step_trg_len (self : RNNSeq2Seq) (trg_len trg_len' batch : nat) (context : shape)
    (forced : bool) (s : shape * shape) :
  loop_step self (trg_len, batch) context forced s
  = loop_step self (trg_len', batch) context forced s.
Proof. reflexivity. Qed.

Lemma loop_one_layer (trg_len batch : nat) (forced : list bool) :
  layers = 1 ->
  loop model (trg_len, batch) [1; batch; hidden] forced ([1; batch; hidden], [batch])
  = Ok ([1; batch; hidden], [batch]).
Proof.
  intros Hl. induction forced as [|f forced IH]; [reflexivity|].
  cbn [loop]. rewrite (loop_step_trg_len _ trg_len 0), (loop_step_one_layer batch f Hl).
  exact IH.
Qed.

(** The first step of the loop fails at the decoder's first [torch.cat]
    unless there is one layer and the two batch sizes agree. *)
Lemma decoder_cat_fails (sb tb : nat) :
  ~ (layers = 1 /\ sb = tb) ->
  exists msg,
    decoder_forward (decoder model) [tb] [layers; sb; hidden] [layers; sb; hidden]
    = Raise (RuntimeError msg).
Proof.
  intros Hne. unfold decoder_forward, cat_shape, agree_except.
  cbn -[Nat.mul Nat.add].
  rewrite (bool_decide_eq_false_2 ([1; tb; 0] = [layers; sb; 0])).
  - eexists. reflexivity.
  - intros E. injection E as E1 E2. apply Hne. split; congruence.
Qed.

(** X22: with one layer and one batch size for source and target every shape
    in [forward] fits, whatever the teacher-forcing choices: the encoder gives
    a context [[1; batch; hidden]], every decoder call gives a prediction
    [[batch; trg_vocab]], and the result is
    [[trg len; batch; trg_vocab]]. *)
Theorem forward_shapes_fit (src_len trg_len batch : nat) (forced : nat -> bool) :
  positive_sizes src_vocab trg_vocab embed_dim hidden ->
  layers = 1 ->
  1 <= src_len -> 1 <= batch -> 1 <= trg_len ->
  encoder_forward (encoder model) (src_len, batch)
  = Ok ([src_len; batch; hidden], [1; batch; hidden]) /\
  decoder_forward (decoder model) [batch] [1; batch; hidden] [1; batch; hidden]
  = Ok ([batch; trg_vocab], [1; batch; hidden]) /\
  forward model (src_len, batch) (trg_len, batch) forced = Ok [trg_len; batch; trg_vocab].
Proof.
  intros _ Hl _ _ Ht. split; [|split].
  - rewrite encoder_shapes, Hl. reflexivity.
  - exact (decoder_one_layer batch Hl).
  - unfold forward. rewrite encoder_shapes, Hl. cbn [mbind result_bind fst snd].
    destruct (Nat.eqb_spec trg_len 0) as [E | _]; [lia|].
    cbn [mbind result_bind mret result_ret].
    rewrite (loop_one_layer trg_len batch _ Hl). reflexivity.
Qed.

(** X23: as soon as the loop runs once, [forward] returns only for a model of
    one layer whose source and target have the same batch size; otherwise the
    first [torch.cat] of the decoder raises. *)
Theorem forward_needs_one_layer (src_len src_batch trg_len trg_batch : nat)
    (forced : nat -> bool) :
  positive_sizes src_vocab trg_vocab embed_dim hidden ->
  1 <= src_len -> 1 <= src_batch -> 1 <= trg_batch ->
  2 <= trg_len ->
  (exists s, forward model (src_len, src_batch) (trg_len, trg_batch) forced = Ok s)
  <-> layers = 1 /\ src_batch = trg_batch.
Proof.
  intros _ _ _ _ Ht. split.
  - intros [s Hs].
    destruct (decide (layers = 1 /\ src_batch = trg_batch)) as [Hy | Hn]; [exact Hy|].
    exfalso. revert Hs. unfold forward. rewrite encoder_shapes.
    cbn [mbind result_bind fst snd].
    destruct (Nat.eqb_spec trg_len 0) as [E | _]; [lia|].
    cbn [mbind result_bind mret result_ret].
    destruct trg_len as [|[|n]]; try lia.
    cbn [Nat.sub seq map loop mbind result_bind]. unfold loop_step at 1.
    destruct (decoder_cat_fails src_batch trg_batch Hn) as [msg ->].
    cbn. discriminate.
  - intros [Hl <-]. exists [trg_len; src_batch; trg_vocab].
    unfold forward. rewrite encoder_shapes, Hl. cbn [mbind result_bind fst snd].
    destruct (Nat.eqb_spec trg_len 0) as [E | _]; [lia|].
    cbn [mbind result_bind mret result_ret].
    rewrite (loop_one_layer trg_len src_batch _ Hl). reflexivity.
Qed.

End Model.

Lemma forward_shapes_fit_witness :
  encoder_forward (encoder (RNNSeq2Seq_init 10 12 4 8 1 0)) (5, 3)
  = Ok ([5; 3; 8], [1; 3; 8]) /\
  decoder_forward (decoder (RNNSeq2Seq_init 10 12 4 8 1 0)) [3] [1; 3; 8] [1; 3; 8]
  = Ok ([3; 12], [1; 3; 8]) /\
  forward (RNNSeq2Seq_init 10 12 4 8 1 0) (5, 3) (4, 3) (fun _ => true) = Ok [4; 3; 12].
Proof.
  apply (forward_shapes_fit 10 12 4 8 1 0 5 4 3 (fun _ => true));
    unfold positive_sizes; lia.
Defined.

Lemma forward_needs_one_layer_witness :
  ~ exists s, forward (RNNSeq2Seq_init 10 12 4 8 2 0) (5, 3) (4, 3) (fun _ => true) = Ok s.
Proof.
  intros Hs.
  apply (proj1 (forward_needs_one_layer 10 12 4 8 2 0 5 3 4 3 (fun _ => true)
                  ltac:(unfold positive_sizes; lia)
                  ltac:(lia) ltac:(lia) ltac:(lia) ltac:(lia))) in Hs.
  destruct Hs as [Hs _]. discriminate Hs.
Defined.

End ShapesProps.

(** ** The initialisation of the weights *)

Module InitProps.

Import Seq2Seq Examples.
Local Open Scope string_scope.

Lemma prefix_app (sub s : string) :
  String.prefix sub s = true <-> exists post, s = sub ++ post.
Proof.
  revert s. induction sub as [|a sub IH]; intros s.
  - split; [intros _; exists s; reflexivity | intros _; destruct s; reflexivity].
  - destruct s as [|b s]; cbn.
    + split; [discriminate | intros [post E]; discriminate E].
    + destruct (ascii_dec a b) as [-> | Hne].
      * rewrite IH. split; intros [post E]; exists post; [rewrite E; reflexivity|].
        injection E as E. exact E.
      * split; [discriminate | intros [post E]]. injection E as E1 E2. congruence.
Qed.

(** [contains] is the substring test. *)
Lemma contains_spec (sub s : string) :
  contains sub s = true <-> exists pre post, s = pre ++ sub ++ post.
Proof.
  induction s as [|c s IH].
  - cbn [contains]. destruct (String.prefix sub "") eqn:E.
    + split; [intros _ | reflexivity]. apply prefix_app in E as [post Ep].
      exists "", post. exact Ep.
    + split; [discriminate|]. intros (pre & post & E').
      destruct pre as [|x pre]; [|discriminate E'].
      assert (String.prefix sub "" = true) by (apply prefix_app; exists post; exact E').
      congruence.
  - cbn [contains]. destruct (String.prefix sub (String c s)) eqn:E.
    + split; [intros _ | reflexivity]. apply prefix_app in E as [post Ep].
      exists "", post. exact Ep.
    + rewrite IH. split.
      * intros (pre & post & ->). exists (String c pre), post. reflexivity.
      * intros (pre & post & E').
        destruct pre as [|x pre].
        -- assert (String.prefix sub (String c s) = true)
             by (apply prefix_app; exists post; exact E').
           congruence.
        -- injection E' as _ E'. exists pre, post. exact E'.
Qed.

Section Init.

Context {G : Type} (normal_ : list Q -> Q -> Q -> G -> list Q * G).

Lemma init_weights_names (ps : list (string * list Q)) (g : G) :
  map fst (fst (init_weights normal_ ps g)) = map fst ps.
Proof.
  revert g. induction ps as [|[name data] ps IH]; intros g; [reflexivity|].
  cbn [init_weights].
  destruct (if contains "weight" name then normal_ data 0%Q (1 # 100)%Q g
            else (constant_ data 0%Q, g)) as [data' g1].
  specialize (IH g1). destruct (init_weights normal_ ps g1) as [rest' g2].
  cbn in *. rewrite IH. reflexivity.
Qed.

(** X24: [init_weights] keeps the names and the order of the parameters, and
    every parameter whose name does not contain ['weight'] ends filled with
    zeros, as many as it had entries. *)
Theorem init_weights_zeroes_biases (ps : list (string * list Q)) (g : G) :
  map fst (fst (init_weights normal_ ps g)) = map fst ps /\
  forall i name data,
    ps !! i = Some (name, data) ->
    (forall pre post, name <> pre ++ "weight" ++ post) ->
    fst (init_weights normal_ ps g) !! i = Some (name, repeat 0%Q (length data)).
Proof.
  split; [apply init_weights_names|].
  revert g. induction ps as [|[n d] ps IH]; intros g i name data Hi Hname; [discriminate|].
  cbn [init_weights].
  destruct i as [|i].
  - cbn in Hi. injection Hi as -> ->.
    assert (Hc : contains "weight" name = false).
    { destruct (contains "weight" name) eqn:E; [|reflexivity].
      apply contains_spec in E as (pre & post & E). destruct (Hname pre post E). }
    rewrite Hc. destruct (init_weights normal_ ps g) as [rest' g2]. reflexivity.
  - cbn in Hi.
    destruct (if contains "weight" n then normal_ d 0%Q (1 # 100)%Q g
              else (constant_ d 0%Q, g)) as [data' g1].
    specialize (IH g1 i name data Hi Hname).
    destruct (init_weights normal_ ps g1) as [rest' g2]. exact IH.
Qed.

End Init.

Lemma init_weights_zeroes_biases_witness :
  fst (init_weights toy_normal_ toy_params tt) !! 1%nat = Some ("fc_out.bias", [0%Q]).
Proof.
  apply (proj2 (init_weights_zeroes_biases toy_normal_ toy_params tt) 1%nat
           "fc_out.bias" [3%Q] eq_refl).
  intros pre post E.
  assert (Hc : contains "weight" "fc_out.bias" = true)
    by (apply contains_spec; exists pre, post; exact E).
  vm_compute in Hc. discriminate Hc.
Defined.

End InitProps.
